(** * NAPLAN dashboard: the filtering and aggregation callbacks of [app.py]

    The four Dash callbacks of [app.py] read two module-level pandas frames
    and turn the current dropdown values into a figure.  This development
    embeds the frames as lists of typed rows, the pandas operations the
    callbacks use ([isin], boolean-mask selection, [groupby(...).mean()],
    [reset_index], [sort_values]) as list functions, and the callbacks as
    computations in a small state monad over the loaded datasets.

    Modelling conventions.
    - A frame is the list of its rows in index order.
    - A float64 is the rational it denotes, and a float64 operation is the
      exact operation followed by rounding to the nearest float64, ties to
      even ([round_f64]).  Scores are finite numbers: NaN, infinities and
      magnitudes beyond the largest float64 are outside the model.
    - Strings compare character by character, as Python compares [str].
    - [groupby] with its default [sort=True] yields the groups in increasing
      key order; the group means are accumulated row by row, as pandas
      does, as a compensated (Kahan) running sum and a running count per
      group, the sum being divided by the count at the end.
    - [sort_values] is modelled by a stable insertion sort; pandas does not
      promise an order among equal keys.
    - The plotly figure is kept as the record of what the callback hands to
      plotly: the plotted frame and the layout values it sets.  plotly
      refuses a facet grid whose row spacing exceeds 1 / (rows - 1); the
      Income Distribution callback, which asks for one facet row per
      school with spacing 0.2, returns a figure or raises accordingly. *)

From Stdlib Require Import Ascii String ZArith QArith List Bool Lia.
From Stdlib Require Import Qround Qpower.
From Stdlib Require Import Sorting.Sorted Sorting.Permutation.
From Stdlib Require Import Structures.OrdersEx.
From Stdlib Require Import Setoid Morphisms RelationClasses.
Import ListNotations.

Local Open Scope string_scope.
Local Open Scope Z_scope.
Local Open Scope list_scope.

(** ** float64 arithmetic *)

(** Bits of a float64 significand and exponent of its smallest positive
    value. *)
Definition prec : Z := 53.
Definition emin : Z := -1074.

(** The integer part of the base-2 logarithm of a positive rational. *)
Definition ilog2 (q : Q) : Z :=
  let e0 := Z.log2 (Qnum q) - Z.log2 (Zpos (Qden q)) in
  if Qle_bool (2 ^ e0) q then e0 else e0 - 1.

(** The nearest integer, the even one of two equally near. *)
Definition round_half_even (x : Q) : Z :=
  let f := Qfloor x in
  match (x - inject_Z f ?= 1 # 2)%Q with
  | Lt => f
  | Gt => f + 1
  | Eq => if Z.even f then f else f + 1
  end.

(** The nearest float64 to a positive rational: the nearest multiple of
    the power of two that leaves 53 significant bits (of the smallest
    power of two for subnormal values). *)
Definition round_magnitude (q : Q) : Q :=
  let e := Z.max emin (ilog2 q - (prec - 1)) in
  (inject_Z (round_half_even (q / 2 ^ e)) * 2 ^ e)%Q.

(** The nearest float64 to a rational, in lowest terms. *)
Definition round_f64 (q : Q) : Q :=
  let q := Qred q in
  match (q ?= 0)%Q with
  | Eq => 0%Q
  | Gt => Qred (round_magnitude q)
  | Lt => Qred (- round_magnitude (- q))
  end.

Definition f64_add (x y : Q) : Q := round_f64 (x + y).
Definition f64_sub (x y : Q) : Q := round_f64 (x - y).
Definition f64_div (x y : Q) : Q := round_f64 (x / y).

(** A count (int64) converted to float64. *)
Definition f64_of_count (n : nat) : Q := round_f64 (inject_Z (Z.of_nat n)).

(** The values of the format: an integer of at most 53 bits scaled by a
    power of two not below the smallest one. *)
Definition in_format (r : Q) : Prop :=
  exists m e,
    (0 <= m <= 2 ^ prec)%Z /\ (emin <= e)%Z /\ (r == inject_Z m * 2 ^ e)%Q.

(** ** The loaded datasets *)

(** A row of [naplan_results.csv].  The float64 of column [avg] is kept as
    a rational that rounds to it and read through [avg], so that every
    score read from a row is a float64. *)
Module Naplan.
Record row : Type := mk {
  school_name : string;
  domain : string;
  results_year : Z;
  year_level : string;
  avg_repr : Q
}.

Definition avg (r : row) : Q := round_f64 (avg_repr r).
End Naplan.

(** A row of [recurrent_income.csv]. *)
Module Income.
Record row : Type := mk {
  school_name : string;
  year : Z;
  net_recurrent_income : string;   (* column "Net recurrent income" *)
  dollars_per_student : Q          (* column "$ per student" *)
}.
End Income.

(** The three module-level frames.  [enrolments_df] is loaded and never
    read by a callback; it is kept as raw cells. *)
Record Store : Type := mkStore {
  enrolments_df : list (list string);
  naplan_results_df : list Naplan.row;
  recurrent_income_df : list Income.row
}.

(** ** Callbacks as computations over the store *)

Definition App (A : Type) : Type := Store -> A * Store.

Definition ret {A} (a : A) : App A := fun s => (a, s).

Definition bind {A B} (m : App A) (k : A -> App B) : App B :=
  fun s => let (a, s') := m s in k a s'.

(** Reading a module-level frame. *)
Definition read {A} (column : Store -> A) : App A := fun s => (column s, s).

Notation "x <- m ;; k" := (bind m (fun x => k))
  (at level 61, m at next level, right associativity).

(** Running a callback twice in a row, as two renders of one chart. *)
Definition twice {A} (m : App A) : App (A * A) :=
  a <- m ;; b <- m ;; ret (a, b).

(** ** pandas operations *)

(** [Series.isin(values)] on a column of strings. *)
Definition isin (values : list string) (x : string) : bool :=
  existsb (String.eqb x) values.

(** [df[mask]]: the rows whose mask entry is true, in index order. *)
Definition select {R} (mask : R -> bool) (df : list R) : list R :=
  filter mask df.

(** [Series.unique()]: the distinct values of a column in order of first
    appearance. *)
Section Unique.
Context {A : Type} (eqb : A -> A -> bool).

Fixpoint unique_from (seen : list A) (l : list A) : list A :=
  match l with
  | [] => []
  | x :: t =>
      if existsb (eqb x) seen then unique_from seen t
      else x :: unique_from (x :: seen) t
  end.

Definition unique (l : list A) : list A := unique_from [] l.
End Unique.

Definition Qsum (l : list Q) : Q := fold_right Qplus (0#1)%Q l.

(** The arithmetic mean of a list of values, as the specification words it:
    their exact sum divided by their number. *)
Definition arithmetic_mean (l : list Q) : Q :=
  (Qsum l / inject_Z (Z.of_nat (length l)))%Q.

(** One step of the compensated sum of pandas' grouped mean, on the
    running sum and its compensation:
    [y = val - compensation; t = sumx + y;
     compensation = t - sumx - y; sumx = t]. *)
Definition kahan_step (acc : Q * Q) (v : Q) : Q * Q :=
  let '(sumx, compensation) := acc in
  let y := f64_sub v compensation in
  let t := f64_add sumx y in
  (t, f64_sub (f64_sub t sumx) y).

(** The float64 mean of a list of values as pandas computes a group's
    mean: the compensated sum of the values in order, divided by their
    number. *)
Definition float64_mean (l : list Q) : Q :=
  f64_div (fst (fold_left kahan_step l (0, 0)%Q)) (f64_of_count (length l)).

Section GroupBy.
Context {K : Type} (cmp : K -> K -> comparison).

(** One step of the grouped mean: row value [v] with group key [k] is
    added to its group's running sum, compensation and count, which start
    at zero; a key not seen before opens a group at its place in key
    order. *)
Fixpoint accumulate (k : K) (v : Q) (acc : list (K * (Q * Q * nat)))
  : list (K * (Q * Q * nat)) :=
  match acc with
  | [] => [(k, (kahan_step (0, 0)%Q v, 1%nat))]
  | (k', (s, n)) :: rest =>
      match cmp k k' with
      | Lt => (k, (kahan_step (0, 0)%Q v, 1%nat)) :: acc
      | Eq => (k', (kahan_step s v, S n)) :: rest
      | Gt => (k', (s, n)) :: accumulate k v rest
      end
  end.

Definition group_sums {R} (key : R -> K) (val : R -> Q) (df : list R)
  : list (K * (Q * Q * nat)) :=
  fold_left (fun acc r => accumulate (key r) (val r) acc) df [].

(** [df.groupby(keys)[col].mean().reset_index()]: one row per group, the
    key columns followed by the group's sum over its count. *)
Definition groupby_mean {R} (key : R -> K) (val : R -> Q) (df : list R)
  : list (K * Q) :=
  map (fun e => (fst e, f64_div (fst (fst (snd e)))
                          (f64_of_count (snd (snd e)))))
      (group_sums key val df).

Definition key_eqb (a b : K) : bool :=
  match cmp a b with Eq => true | _ => false end.
End GroupBy.

(** The values of column [val] over the rows of [df] whose key is [k], in
    index order: what the group of [k] averages. *)
Definition group_values {K R} (cmp : K -> K -> comparison)
    (key : R -> K) (val : R -> Q) (k : K) (df : list R) : list Q :=
  map val (filter (fun r => key_eqb cmp (key r) k) df).

(** Groups listed in strictly increasing key order. *)
Definition increasing_keys {K V} (cmp : K -> K -> comparison)
    (l : list (K * V)) : Prop :=
  StronglySorted (fun a b => cmp (fst a) (fst b) = Lt) l.

(** What the accumulation needs of a three-way comparison of keys: it
    decides equality and its [Lt] is a strict order. *)
Record StrictCompare {K} (cmp : K -> K -> comparison) : Prop := {
  cmp_eq : forall a b, cmp a b = Eq -> a = b;
  cmp_refl : forall a, cmp a a = Eq;
  cmp_trans : forall a b c, cmp a b = Lt -> cmp b c = Lt -> cmp a c = Lt;
  cmp_gt : forall a b, cmp a b = Gt -> cmp b a = Lt
}.

(** Lexicographic comparison of a pair of key columns. *)
Definition pair_compare {A B} (ca : A -> A -> comparison)
    (cb : B -> B -> comparison) (x y : A * B) : comparison :=
  match ca (fst x) (fst y) with
  | Eq => cb (snd x) (snd y)
  | Lt => Lt
  | Gt => Gt
  end.

Definition string_compare : string -> string -> comparison :=
  String_as_OT.compare.

(** [df.sort_values(ascending=True, by=col)]. *)
Section SortValues.
Context {A : Type} (by_col : A -> Q).

Fixpoint insert_sorted (x : A) (l : list A) : list A :=
  match l with
  | [] => [x]
  | y :: t =>
      if Qle_bool (by_col x) (by_col y) then x :: l
      else y :: insert_sorted x t
  end.

Definition sort_values (l : list A) : list A :=
  fold_right insert_sorted [] l.

(** Rows in non-decreasing order of the column. *)
Definition nondecreasing (l : list A) : Prop :=
  StronglySorted (fun a b => (by_col a <= by_col b)%Q) l.
End SortValues.

(** ** Dropdown values *)

(** The value of the [results-year] dropdown: one of its options (the
    label ["All"] or a year of the data), or nothing when cleared. *)
Inductive year_value : Type :=
| YearLabel (s : string)
| YearNumber (y : Z)
| YearCleared.

(** [naplan_results_df["results_year"] == results_year], row by row: an
    integer column equals only an integer of the same value. *)
Definition year_equals (results_year : year_value) (y : Z) : bool :=
  match results_year with
  | YearNumber z => Z.eqb y z
  | _ => false
  end.

(** [naplan_results_df["domain"] == result_domain], row by row. *)
Definition domain_equals (result_domain : option string) (d : string) : bool :=
  match result_domain with
  | Some x => String.eqb d x
  | None => false
  end.

(** [result_domain == "All"]. *)
Definition domain_is_all (result_domain : option string) : bool :=
  match result_domain with
  | Some d => String.eqb d "All"
  | None => false
  end.

(** [results_year == "All"]. *)
Definition year_is_all (results_year : year_value) : bool :=
  match results_year with
  | YearLabel s => String.eqb s "All"
  | _ => false
  end.

(** [if school_selection is None: school_selection = []]. *)
Definition or_empty (school_selection : option (list string)) : list string :=
  match school_selection with
  | None => []
  | Some l => l
  end.

(** ** Income Distribution *)

Record IncomeFigure : Type := mkIncomeFigure {
  income_data : list Income.row;
  income_height : Z
}.

Definition distribution_income_fields : list string :=
  [ "Australian government recurrent funding";
    "State / territory government recurring funding";
    "Fees, charges and parent contributions";
    "Other private sources" ].

Definition trend_income_fields : list string := [ "Total gross income" ].

Definition income_plot_df (income_fields : list string)
    (df : list Income.row) (school_selection : list string)
  : list Income.row :=
  select (fun r => isin income_fields (Income.net_recurrent_income r)
                   && isin school_selection (Income.school_name r)) df.

(** [max(300 * len(school_selection), 300)]. *)
Definition layout_height (school_selection : list string) : Z :=
  Z.max (300 * Z.of_nat (length school_selection)) 300.

(** What a callback comes to: the figure it returns or the exception it
    raises. *)
Inductive exception : Type := ValueError.

Inductive outcome (A : Type) : Type :=
| Returned (a : A)
| Raised (e : exception).

Arguments Returned {A} a.
Arguments Raised {A} e.

(** The facet rows plotly lays out for [facet_col] with
    [facet_col_wrap=1]: one for each distinct value of the column. *)
Definition facet_rows (column : list string) : nat :=
  length (unique String.eqb column).

(** plotly's check of [facet_row_spacing] for a grid of [rows] rows: the
    spacing lies between 0 and 1, and with more than one row it may not
    exceed [1 / (rows - 1)]; otherwise plotly raises ValueError. *)
Definition vertical_spacing_fits (rows : nat) (spacing : Q) : bool :=
  Qle_bool 0 spacing && Qle_bool spacing 1
  && ((rows <=? 1)%nat
      || Qle_bool spacing (1 / inject_Z (Z.of_nat rows - 1))).

(** The frame [plot_df] of the Income Distribution callback. *)
Definition income_distribution_plot_df (school_selection : option (list string))
  : App (list Income.row) :=
  let school_selection := or_empty school_selection in
  df <- read recurrent_income_df ;;
  ret (income_plot_df distribution_income_fields df school_selection).

(** [px.area(plot_df, ..., facet_col="school_name", facet_col_wrap=1,
    facet_row_spacing=0.2)] raises or the layout is updated. *)
Definition update_income_distribution (school_selection : option (list string))
  : App (outcome IncomeFigure) :=
  plot_df <- income_distribution_plot_df school_selection ;;
  if vertical_spacing_fits
       (facet_rows (map Income.school_name plot_df)) (2 # 10)
  then ret (Returned
              {| income_data := plot_df;
                 income_height := layout_height (or_empty school_selection) |})
  else ret (Raised ValueError).

(** ** Recurrent Income Trend *)

Definition update_recurrent_income (school_selection : option (list string))
  : App IncomeFigure :=
  let school_selection := or_empty school_selection in
  df <- read recurrent_income_df ;;
  ret {| income_data :=
           income_plot_df trend_income_fields df school_selection;
         income_height := layout_height school_selection |}.

(** ** Historical Performance *)

(** Key columns [school_name, results_year, year_level]. *)
Definition level_key : Type := string * Z * string.

Definition level_key_of (r : Naplan.row) : level_key :=
  (Naplan.school_name r, Naplan.results_year r, Naplan.year_level r).

Definition level_compare : level_key -> level_key -> comparison :=
  pair_compare (pair_compare string_compare Z.compare) string_compare.

(** The plotted frame: grouped means (columns school_name, results_year,
    year_level, avg) on the ["All"] branch, source rows otherwise. *)
Inductive results_frame : Type :=
| Averaged (rows : list (level_key * Q))
| Unaggregated (rows : list Naplan.row).

Definition frame_length (f : results_frame) : nat :=
  match f with
  | Averaged rows => length rows
  | Unaggregated rows => length rows
  end.

Definition naplan_plot_df (df : list Naplan.row)
    (school_selection : list string) (result_domain : option string)
  : results_frame :=
  if domain_is_all result_domain then
    Averaged
      (groupby_mean level_compare level_key_of Naplan.avg
         (select (fun r => isin school_selection (Naplan.school_name r)) df))
  else
    Unaggregated
      (select (fun r => isin school_selection (Naplan.school_name r)
                        && domain_equals result_domain (Naplan.domain r)) df).

Record ResultsFigure : Type := mkResultsFigure {
  results_data : results_frame;
  results_title : string;
  results_y_axis_title : string;
  results_height : Z;
  plot_bgcolor : string
}.

(** [f"{result_domain}"]. *)
Definition format_domain (result_domain : option string) : string :=
  match result_domain with
  | Some d => d
  | None => "None"
  end.

Definition update_naplan_results_per_year
    (school_selection : option (list string)) (result_domain : option string)
  : App ResultsFigure :=
  let background_colour :=
    match school_selection with
    | None => "white"
    | Some _ => "#e5ecf6"
    end in
  let school_selection := or_empty school_selection in
  df <- read naplan_results_df ;;
  ret {| results_data := naplan_plot_df df school_selection result_domain;
         results_title := format_domain result_domain ++ " NAPLAN Results";
         results_y_axis_title :=
           (if domain_is_all result_domain then "Average NAPLAN Score"
            else "NAPLAN Score");
         results_height := 700;
         plot_bgcolor := background_colour |}.

(** ** Top Schools *)

(** The ranked frame: columns school_name, avg for ["All"]; school_name,
    results_year, avg for a year. *)
Inductive ranking_frame : Type :=
| BySchool (rows : list (string * Q))
| BySchoolYear (rows : list (string * Z * Q)).

Definition ranking_length (f : ranking_frame) : nat :=
  match f with
  | BySchool rows => length rows
  | BySchoolYear rows => length rows
  end.

(** The [avg] column of the ranked frame, top to bottom. *)
Definition ranking_avg (f : ranking_frame) : list Q :=
  match f with
  | BySchool rows => map snd rows
  | BySchoolYear rows => map snd rows
  end.

(** The [school_name] column of the ranked frame, top to bottom. *)
Definition ranking_school_name (f : ranking_frame) : list string :=
  match f with
  | BySchool rows => map fst rows
  | BySchoolYear rows => map (fun r => fst (fst r)) rows
  end.

Definition top_ranked_plot_df (df : list Naplan.row) (results_year : year_value)
  : ranking_frame :=
  if year_is_all results_year then
    BySchool
      (sort_values snd
         (groupby_mean string_compare Naplan.school_name Naplan.avg df))
  else
    BySchoolYear
      (sort_values snd
         (groupby_mean (pair_compare string_compare Z.compare)
            (fun r => (Naplan.school_name r, Naplan.results_year r))
            Naplan.avg
            (select (fun r => year_equals results_year (Naplan.results_year r))
               df))).

Record RankingFigure : Type := mkRankingFigure {
  ranking_data : ranking_frame;
  ranking_title : string;
  ranking_height : Z
}.

Definition update_top_ranked_schools (results_year : year_value)
  : App RankingFigure :=
  df <- read naplan_results_df ;;
  ret {| ranking_data := top_ranked_plot_df df results_year;
         ranking_title := "Top Schools by Average NAPLAN Results";
         ranking_height := 700 |}.

(** ** Callback wiring *)

(** The [value] property of every dropdown of the layout, by component id. *)
Record Inputs : Type := mkInputs {
  school_selection : option (list string);                      (* school-selection *)
  result_domain : option string;                                (* result-domain *)
  top_n_skill_selection : option string;                        (* top-n-skill-selection *)
  results_year : year_value;                                    (* results-year *)
  income_distribution_school_selection : option (list string);  (* income-distribution-school-selection *)
  recurrent_income_school_selection : option (list string)      (* recurrent-income-school-selection *)
}.

(** Each [@callback(Output(...), Input(...), ...)] passes the declared
    inputs, and only those, to the function it decorates. *)
Definition render_income_distribution (i : Inputs)
  : App (outcome IncomeFigure) :=
  update_income_distribution (income_distribution_school_selection i).

Definition render_recurrent_income (i : Inputs) : App IncomeFigure :=
  update_recurrent_income (recurrent_income_school_selection i).

Definition render_average_naplan_results (i : Inputs) : App ResultsFigure :=
  update_naplan_results_per_year (school_selection i) (result_domain i).

Definition render_top_schools (i : Inputs) : App RankingFigure :=
  update_top_ranked_schools (results_year i).

(** Setting the skill dropdown of the Top Schools tab. *)
Definition set_top_n_skill_selection (v : option string) (i : Inputs) : Inputs :=
  {| school_selection := school_selection i;
     result_domain := result_domain i;
     top_n_skill_selection := v;
     results_year := results_year i;
     income_distribution_school_selection := income_distribution_school_selection i;
     recurrent_income_school_selection := recurrent_income_school_selection i |}.

(** ** Dropdown options of the layout *)

(** Options of [result-domain]:
    [["All"] + naplan_results_df["domain"].unique().tolist()]. *)
Definition result_domain_options (st : Store) : list string :=
  "All" :: unique String.eqb (map Naplan.domain (naplan_results_df st)).

(** Options of [school-selection]:
    [naplan_results_df["school_name"].unique()]. *)
Definition school_selection_options (st : Store) : list string :=
  unique String.eqb (map Naplan.school_name (naplan_results_df st)).

(** Options of [results-year]:
    [["All"] + naplan_results_df["results_year"].unique().tolist()]. *)
Definition results_year_options (st : Store) : list year_value :=
  YearLabel "All"
  :: map YearNumber
       (unique Z.eqb (map Naplan.results_year (naplan_results_df st))).

(** Options of [top-n-skill-selection]. *)
Definition top_n_skill_selection_options : list string :=
  [ "All"; "Reading"; "Writing"; "Spelling"; "Grammar"; "Numeracy" ].

(** Options of both income dropdowns:
    [recurrent_income_df["school_name"].unique()]. *)
Definition income_school_selection_options (st : Store) : list string :=
  unique String.eqb (map Income.school_name (recurrent_income_df st)).

(** ** Facet annotations *)

(** [text.split(sep)] for a one-character separator: the pieces between
    the separators, empty pieces included. *)
Fixpoint split_char (sep : Ascii.ascii) (text : string) : list string :=
  match text with
  | EmptyString => [EmptyString]
  | String c rest =>
      if Ascii.eqb c sep then EmptyString :: split_char sep rest
      else match split_char sep rest with
           | piece :: pieces => String c piece :: pieces
           | [] => [String c EmptyString]
           end
  end.

(** [sep.join(pieces)] for a one-character separator. *)
Fixpoint join_char (sep : Ascii.ascii) (pieces : list string) : string :=
  match pieces with
  | [] => EmptyString
  | [piece] => piece
  | piece :: rest => piece ++ String sep (join_char sep rest)
  end.

(** [l[-1]]: the last item; [None] stands for IndexError on an empty
    list. *)
Fixpoint last_item {A} (l : list A) : option A :=
  match l with
  | [] => None
  | [x] => Some x
  | _ :: t => last_item t
  end.

(** The text set by [lambda a: a.update(text=a.text.split("=")[-1])]. *)
Definition annotation_text (text : string) : option string :=
  last_item (split_char "="%char text).

(** The character occurs in the string. *)
Fixpoint occurs (c : Ascii.ascii) (s : string) : bool :=
  match s with
  | EmptyString => false
  | String c' rest => Ascii.eqb c' c || occurs c rest
  end.

(** ** Colours of the income categories *)

(** A Python [dict] with string keys, in insertion order. *)
Fixpoint dict_set (k v : string) (d : list (string * string))
  : list (string * string) :=
  match d with
  | [] => [(k, v)]
  | (k', v') :: rest =>
      if String.eqb k' k then (k', v) :: rest
      else (k', v') :: dict_set k v rest
  end.

Fixpoint dict_get (k : string) (d : list (string * string)) : option string :=
  match d with
  | [] => None
  | (k', v') :: rest => if String.eqb k' k then Some v' else dict_get k rest
  end.

(** [{f: palette[i] for i, f in enumerate(fields)}], starting the count at
    [i]; [None] stands for the IndexError of [palette[i]]. *)
Fixpoint colordict_from (palette : list string) (i : nat)
    (fields : list string) (d : list (string * string))
  : option (list (string * string)) :=
  match fields with
  | [] => Some d
  | f :: rest =>
      match nth_error palette i with
      | Some colour => colordict_from palette (S i) rest (dict_set f colour d)
      | None => None
      end
  end.

(** The [colordict] of the Income Distribution callback.  The palette
    [px.colors.qualitative.Plotly] belongs to plotly and is a parameter. *)
Definition colordict (palette : list string)
  : option (list (string * string)) :=
  colordict_from palette 0 distribution_income_fields [].

(** * Properties *)

(** ** float64 rounding *)

Section RoundingFacts.
Local Open Scope Q_scope.


Lemma pow2_pos (e : Z) : 0 < 2 ^ e.
Proof. apply Qpower_0_lt. reflexivity. Qed.

Lemma pow2_nonzero (e : Z) : ~ 2 ^ e == 0.
Proof. intros H. pose proof (pow2_pos e) as Hp. rewrite H in Hp. discriminate. Qed.

Lemma pow2_plus (a b : Z) : 2 ^ (a + b) == 2 ^ a * 2 ^ b.
Proof. apply Qpower_plus. discriminate. Qed.

Lemma pow2_lt (a b : Z) : (a < b)%Z -> 2 ^ a < 2 ^ b.
Proof. intros H. apply Qpower_lt_compat_l; [exact H|reflexivity]. Qed.

Lemma pow2_le (a b : Z) : (a <= b)%Z -> 2 ^ a <= 2 ^ b.
Proof. intros H. apply Qpower_le_compat_l; [exact H|discriminate]. Qed.

Lemma pow2_lt_inv (a b : Z) : 2 ^ a < 2 ^ b -> (a < b)%Z.
Proof. intros H. eapply Qpower_lt_compat_l_inv; [exact H|reflexivity]. Qed.

Lemma pow2_inject (n : Z) : (0 <= n)%Z -> inject_Z (2 ^ n) == 2 ^ n.
Proof. intros H. rewrite Zpower_Qpower by exact H. reflexivity. Qed.

Lemma div_pow2 (q : Q) (e : Z) : q / 2 ^ e == q * 2 ^ (- e).
Proof. unfold Qdiv. rewrite Qpower_opp. reflexivity. Qed.

Lemma Q_num_den (q : Q) : q * inject_Z (Zpos (Qden q)) == inject_Z (Qnum q).
Proof.
  destruct q as [n d]. unfold Qeq, Qmult, inject_Z. simpl. lia.
Qed.

Lemma ilog2_spec (q : Q) : 0 < q -> 2 ^ ilog2 q <= q /\ q < 2 ^ (ilog2 q + 1).
Proof.
  intros Hq.
  assert (Hn : (0 < Qnum q)%Z).
  { destruct q as [n d]. unfold Qlt in Hq. simpl in *. lia. }
  set (ln := Z.log2 (Qnum q)). set (ld := Z.log2 (Zpos (Qden q))).
  destruct (Z.log2_spec (Qnum q) Hn) as [Hn1 Hn2]. fold ln in Hn1, Hn2.
  destruct (Z.log2_spec (Zpos (Qden q)) (Pos2Z.is_pos _)) as [Hd1 Hd2].
  fold ld in Hd1, Hd2.
  assert (Hln : (0 <= ln)%Z) by apply Z.log2_nonneg.
  assert (Hld : (0 <= ld)%Z) by apply Z.log2_nonneg.
  pose proof (Q_num_den q) as Hqd.
  assert (Hup : q < 2 ^ (ln - ld + 1)).
  { apply (Qmult_lt_r _ _ (2 ^ ld) (pow2_pos ld)).
    rewrite <- pow2_plus. replace (ln - ld + 1 + ld)%Z with (ln + 1)%Z by lia.
    apply Qle_lt_trans with (q * inject_Z (Zpos (Qden q))).
    - apply Qmult_le_l; [exact Hq|]. rewrite <- pow2_inject by exact Hld.
      rewrite <- Zle_Qle. exact Hd1.
    - rewrite Hqd. rewrite <- pow2_inject by lia. rewrite <- Zlt_Qlt.
      replace (ln + 1)%Z with (Z.succ ln) by lia. exact Hn2. }
  assert (Hlow : 2 ^ (ln - ld - 1) <= q).
  { apply (Qmult_le_r _ _ (2 ^ (ld + 1)) (pow2_pos _)).
    rewrite <- pow2_plus. replace (ln - ld - 1 + (ld + 1))%Z with ln by lia.
    apply Qle_trans with (q * inject_Z (Zpos (Qden q))).
    - rewrite Hqd. rewrite <- pow2_inject by exact Hln. rewrite <- Zle_Qle.
      exact Hn1.
    - apply Qmult_le_l; [exact Hq|]. rewrite <- pow2_inject by lia.
      rewrite <- Zle_Qle. replace (ld + 1)%Z with (Z.succ ld) by lia. lia. }
  unfold ilog2. fold ln ld.
  destruct (Qle_bool (2 ^ (ln - ld)) q) eqn:E.
  - apply Qle_bool_iff in E. split; assumption.
  - replace (ln - ld - 1 + 1)%Z with (ln - ld)%Z by lia. split; [exact Hlow|].
    apply Qnot_le_lt. intros H. apply Qle_bool_iff in H. congruence.
Qed.

Lemma ilog2_unique (q : Q) (k : Z) :
  2 ^ k <= q -> q < 2 ^ (k + 1) -> ilog2 q = k.
Proof.
  intros Hlo Hhi.
  assert (Hq : 0 < q) by (eapply Qlt_le_trans; [apply (pow2_pos k)|exact Hlo]).
  destruct (ilog2_spec q Hq) as [Hlo' Hhi'].
  assert (H1 : (k < ilog2 q + 1)%Z).
  { apply pow2_lt_inv. eapply Qle_lt_trans; eassumption. }
  assert (H2 : (ilog2 q < k + 1)%Z).
  { apply pow2_lt_inv. eapply Qle_lt_trans; eassumption. }
  lia.
Qed.


Lemma ilog2_comp (x y : Q) : 0 < x -> x == y -> ilog2 x = ilog2 y.
Proof.
  intros Hx Hxy. destruct (ilog2_spec x Hx) as [Hlo Hhi]. symmetry.
  apply ilog2_unique; rewrite <- Hxy; assumption.
Qed.

Lemma round_half_even_comp (x y : Q) :
  x == y -> round_half_even x = round_half_even y.
Proof.
  intros Hxy. unfold round_half_even.
  rewrite (Qfloor_comp _ _ Hxy).
  assert (Hc : (x - inject_Z (Qfloor y) ?= 1 # 2) = (y - inject_Z (Qfloor y) ?= 1 # 2)).
  { apply Qcompare_comp; [rewrite Hxy|]; reflexivity. }
  rewrite Hc. reflexivity.
Qed.

Lemma round_half_even_Z (z : Z) : round_half_even (inject_Z z) = z.
Proof.
  unfold round_half_even. rewrite Qfloor_Z.
  assert (Hc : (inject_Z z - inject_Z z ?= 1 # 2) = Lt).
  { rewrite <- Qlt_alt. setoid_replace (inject_Z z - inject_Z z) with 0 by ring.
    reflexivity. }
  rewrite Hc. reflexivity.
Qed.

Lemma round_half_even_bounds (x : Q) :
  (Qfloor x <= round_half_even x <= Qfloor x + 1)%Z.
Proof.
  unfold round_half_even.
  destruct (x - inject_Z (Qfloor x) ?= 1 # 2); [destruct (Z.even (Qfloor x))| |]; lia.
Qed.

Lemma round_magnitude_comp (x y : Q) :
  0 < x -> x == y -> round_magnitude x == round_magnitude y.
Proof.
  intros Hx Hxy. unfold round_magnitude.
  rewrite (ilog2_comp x y Hx Hxy).
  set (e := Z.max emin (ilog2 y - (prec - 1))).
  rewrite (round_half_even_comp (x / 2 ^ e) (y / 2 ^ e)); [reflexivity|].
  rewrite Hxy. reflexivity.
Qed.

Lemma round_magnitude_in_format (q : Q) : 0 < q -> in_format (round_magnitude q).
Proof.
  intros Hq. unfold round_magnitude.
  set (e := Z.max emin (ilog2 q - (prec - 1))).
  exists (round_half_even (q / 2 ^ e)), e.
  split; [|split; [unfold e; lia|reflexivity]].
  destruct (ilog2_spec q Hq) as [_ Hhi].
  assert (Hx : q / 2 ^ e < inject_Z (2 ^ prec)).
  { apply Qlt_shift_div_r; [apply pow2_pos|].
    rewrite pow2_inject by (unfold prec; lia). rewrite <- pow2_plus.
    eapply Qlt_le_trans; [exact Hhi|]. apply pow2_le. unfold e, prec. lia. }
  assert (Hx0 : 0 <= q / 2 ^ e).
  { apply Qle_shift_div_l; [apply pow2_pos|]. rewrite Qmult_0_l.
    apply Qlt_le_weak. exact Hq. }
  pose proof (round_half_even_bounds (q / 2 ^ e)) as [Hb1 Hb2].
  assert (Hf0 : (0 <= Qfloor (q / 2 ^ e))%Z).
  { change 0%Z with (Qfloor 0). apply Qfloor_resp_le. exact Hx0. }
  assert (Hf1 : (Qfloor (q / 2 ^ e) < 2 ^ prec)%Z).
  { rewrite Zlt_Qlt. eapply Qle_lt_trans; [apply Qfloor_le|exact Hx]. }
  lia.
Qed.

Lemma round_magnitude_fixed (r : Q) :
  0 < r -> in_format r -> round_magnitude r == r.
Proof.
  intros Hr [m [e [Hm [He Hrm]]]].
  unfold round_magnitude.
  set (e' := Z.max emin (ilog2 r - (prec - 1))).
  assert (Hz : exists z, r / 2 ^ e' == inject_Z z).
  { destruct (Z_le_gt_dec e' e) as [Hle|Hgt].
    - exists (m * 2 ^ (e - e'))%Z.
      rewrite inject_Z_mult, pow2_inject by lia.
      rewrite Hrm, div_pow2, <- Qmult_assoc, <- pow2_plus.
      replace (e + - e')%Z with (e - e')%Z by lia. reflexivity.
    - (* the exponent grew: the significand is exactly 2^53 *)
      destruct (ilog2_spec r Hr) as [Hlo Hhi].
      assert (Hk : (e + prec <= ilog2 r)%Z) by (unfold e', prec in *; lia).
      assert (Hm53 : m = (2 ^ prec)%Z).
      { assert (H2 : 2 ^ (e + prec) <= r).
        { eapply Qle_trans; [apply pow2_le; exact Hk|exact Hlo]. }
        rewrite Hrm, Z.add_comm, pow2_plus in H2.
        rewrite (Qmult_comm (2 ^ prec)) in H2. rewrite (Qmult_comm (inject_Z m)) in H2.
        apply Qmult_le_l in H2; [|apply pow2_pos].
        rewrite <- pow2_inject in H2 by (unfold prec; lia).
        rewrite <- Zle_Qle in H2. lia. }
      assert (Hr2 : r == 2 ^ (e + prec)).
      { rewrite Hrm, Hm53, pow2_inject by (unfold prec; lia).
        rewrite Z.add_comm. symmetry. apply pow2_plus. }
      assert (Hil : ilog2 r = (e + prec)%Z).
      { apply ilog2_unique.
        - rewrite Hr2. apply Qle_refl.
        - rewrite Hr2. apply pow2_lt. lia. }
      exists (2 ^ (prec - 1))%Z.
      rewrite pow2_inject by (unfold prec; lia).
      rewrite Hr2, div_pow2, <- pow2_plus.
      assert (He' : e' = (e + 1)%Z) by (unfold e', prec in *; lia).
      rewrite He'. replace (e + prec + - (e + 1))%Z with (prec - 1)%Z by lia.
      reflexivity. }
  destruct Hz as [z Hz].
  rewrite (round_half_even_comp _ _ Hz), round_half_even_Z, <- Hz.
  unfold Qdiv. rewrite <- Qmult_assoc, (Qmult_comm (/ 2 ^ e')), Qmult_inv_r.
  - apply Qmult_1_r.
  - apply pow2_nonzero.
Qed.

Lemma round_f64_comp (x y : Q) : x == y -> round_f64 x = round_f64 y.
Proof.
  intros Hxy. unfold round_f64. rewrite (Qred_complete x y Hxy). reflexivity.
Qed.

Lemma round_magnitude_nonneg (q : Q) : 0 < q -> 0 <= round_magnitude q.
Proof.
  intros Hq. destruct (round_magnitude_in_format q Hq) as [m [e [Hm [_ Hr]]]].
  rewrite Hr. apply Qmult_le_0_compat.
  - change 0 with (inject_Z 0). rewrite <- Zle_Qle. lia.
  - apply Qlt_le_weak, pow2_pos.
Qed.


Lemma round_f64_fixed_zero (r : Q) : r == 0 -> round_f64 r == r.
Proof.
  intros Hr. rewrite (round_f64_comp r 0 Hr), Hr. reflexivity.
Qed.

Lemma round_f64_fixed_pos (r : Q) : 0 < r -> in_format r -> round_f64 r == r.
Proof.
  intros Hr Hf. unfold round_f64.
  assert (Hr' : 0 < Qred r) by (rewrite Qred_correct; exact Hr).
  assert (E : (Qred r ?= 0) = Gt) by (apply Qgt_alt; exact Hr').
  rewrite E, Qred_correct.
  rewrite (round_magnitude_comp (Qred r) r Hr') by apply Qred_correct.
  apply round_magnitude_fixed; assumption.
Qed.

Lemma round_f64_fixed_neg (r : Q) : r < 0 -> in_format (- r) -> round_f64 r == r.
Proof.
  intros Hr Hf. unfold round_f64.
  assert (E : (Qred r ?= 0) = Lt).
  { apply Qlt_alt. rewrite Qred_correct. exact Hr. }
  assert (Hr' : 0 < - r).
  { apply (Qplus_lt_l _ _ r). ring_simplify. exact Hr. }
  assert (Hr'' : 0 < - Qred r) by (rewrite Qred_correct; exact Hr').
  rewrite E, Qred_correct.
  rewrite (round_magnitude_comp (- Qred r) (- r) Hr'')
    by (rewrite Qred_correct; reflexivity).
  rewrite round_magnitude_fixed by assumption. ring.
Qed.

Lemma in_format_comp (x y : Q) : x == y -> in_format x -> in_format y.
Proof.
  intros Hxy [m [e [Hm [He Hx]]]]. exists m, e. rewrite <- Hxy. auto.
Qed.

Lemma round_f64_format (q : Q) :
  (0 <= round_f64 q /\ in_format (round_f64 q))
  \/ (round_f64 q <= 0 /\ in_format (- round_f64 q)).
Proof.
  unfold round_f64. destruct (Qred q ?= 0) eqn:E.
  - left. split; [apply Qle_refl|].
    exists 0%Z, 0%Z. unfold prec, emin. split; [lia|]. split; [lia|reflexivity].
  - apply Qlt_alt in E.
    assert (Hr : 0 < - Qred q).
    { apply (Qplus_lt_l _ _ (Qred q)). ring_simplify. exact E. }
    right. split.
    + rewrite (Qred_correct (- round_magnitude (- Qred q))).
      pose proof (round_magnitude_nonneg _ Hr) as Hnn.
      apply (Qplus_le_l _ _ (round_magnitude (- Qred q))). ring_simplify.
      exact Hnn.
    + apply (in_format_comp (round_magnitude (- Qred q))).
      * rewrite (Qred_correct (- round_magnitude (- Qred q))). ring.
      * apply round_magnitude_in_format. exact Hr.
  - apply Qgt_alt in E. left. split.
    + rewrite (Qred_correct (round_magnitude (Qred q))).
      apply round_magnitude_nonneg. exact E.
    + apply (in_format_comp (round_magnitude (Qred q))).
      * symmetry. apply Qred_correct.
      * apply round_magnitude_in_format. exact E.
Qed.

Lemma round_f64_idempotent (q : Q) : round_f64 (round_f64 q) == round_f64 q.
Proof.
  set (r := round_f64 q).
  destruct (Q_dec r 0) as [[Hneg|Hpos]|Hz].
  - apply round_f64_fixed_neg; [exact Hneg|].
    destruct (round_f64_format q) as [[H0 _]|[_ Hf]]; [|exact Hf].
    exfalso. fold r in H0. apply (Qlt_irrefl 0).
    eapply Qle_lt_trans; eassumption.
  - apply round_f64_fixed_pos; [exact Hpos|].
    destruct (round_f64_format q) as [[_ Hf]|[H0 _]]; [exact Hf|].
    exfalso. fold r in H0. apply (Qlt_irrefl 0).
    eapply Qlt_le_trans; eassumption.
  - apply round_f64_fixed_zero. exact Hz.
Qed.

Lemma round_f64_zero : round_f64 0 = 0.
Proof. reflexivity. Qed.

Lemma round_f64_one : round_f64 1 = 1.
Proof. reflexivity. Qed.
End RoundingFacts.


(** ** Key comparisons *)

Lemma string_compare_strict : StrictCompare string_compare.
Proof.
  unfold string_compare. split.
  - intros a b H. destruct (String_as_OT.compare_spec a b); congruence.
  - intros a. destruct (String_as_OT.compare_spec a a) as [_|H|H]; trivial;
      exfalso; revert H; apply (StrictOrder_Irreflexive a).
  - intros a b c Hab Hbc.
    exact (StrictOrder_Transitive (R := String_as_OT.lt) a b c Hab Hbc).
  - intros a b H. destruct (String_as_OT.compare_spec a b); try discriminate.
    assumption.
Qed.

Lemma Z_compare_strict : StrictCompare Z.compare.
Proof.
  split.
  - apply Z.compare_eq.
  - apply Z.compare_refl.
  - intros a b c. rewrite !Z.compare_lt_iff. lia.
  - intros a b. rewrite Z.compare_gt_iff, Z.compare_lt_iff. trivial.
Qed.

Lemma pair_compare_strict {A B} (ca : A -> A -> comparison)
    (cb : B -> B -> comparison) :
  StrictCompare ca -> StrictCompare cb -> StrictCompare (pair_compare ca cb).
Proof.
  intros Ha Hb. split; unfold pair_compare.
  - intros [a1 b1] [a2 b2]; simpl.
    destruct (ca a1 a2) eqn:E; try discriminate.
    intros H. apply (cmp_eq _ Ha) in E. apply (cmp_eq _ Hb) in H. congruence.
  - intros [a b]; simpl. rewrite (cmp_refl _ Ha). apply (cmp_refl _ Hb).
  - intros [a1 b1] [a2 b2] [a3 b3]; simpl.
    destruct (ca a1 a2) eqn:E12; try discriminate;
      destruct (ca a2 a3) eqn:E23; try discriminate; intros H12 H23.
    + apply (cmp_eq _ Ha) in E12, E23. subst. rewrite (cmp_refl _ Ha).
      eapply (cmp_trans _ Hb); eassumption.
    + apply (cmp_eq _ Ha) in E12. subst. rewrite E23. reflexivity.
    + apply (cmp_eq _ Ha) in E23. subst. rewrite E12. reflexivity.
    + rewrite (cmp_trans _ Ha _ _ _ E12 E23). reflexivity.
  - intros [a1 b1] [a2 b2]; simpl.
    destruct (ca a1 a2) eqn:E; try discriminate; intros H.
    + apply (cmp_eq _ Ha) in E. subst. rewrite (cmp_refl _ Ha).
      apply (cmp_gt _ Hb). assumption.
    + rewrite (cmp_gt _ Ha _ _ E). reflexivity.
Qed.

Lemma level_compare_strict : StrictCompare level_compare.
Proof.
  unfold level_compare.
  repeat apply pair_compare_strict;
    first [ exact string_compare_strict | exact Z_compare_strict ].
Qed.

Lemma key_eqb_true {K} (cmp : K -> K -> comparison) :
  StrictCompare cmp -> forall a b, key_eqb cmp a b = true <-> a = b.
Proof.
  intros H a b. unfold key_eqb. split.
  - destruct (cmp a b) eqn:E; try discriminate. intros _.
    apply (cmp_eq _ H). assumption.
  - intros ->. rewrite (cmp_refl _ H). reflexivity.
Qed.

(** ** Grouped means *)

Section GroupByFacts.
Context {K : Type} (cmp : K -> K -> comparison) (Hcmp : StrictCompare cmp).

Lemma accumulate_Forall_key (P : K -> Prop) k v
    (acc : list (K * (Q * Q * nat))) :
  P k -> Forall (fun e => P (fst e)) acc ->
  Forall (fun e => P (fst e)) (accumulate cmp k v acc).
Proof.
  intros Hk. induction acc as [|[k' [s n]] rest IH]; simpl; intros Hacc.
  - constructor; trivial.
  - inversion Hacc as [|? ? Hhd Htl]; subst.
    destruct (cmp k k'); constructor; auto.
Qed.

Lemma accumulate_increasing k v acc :
  increasing_keys cmp acc -> increasing_keys cmp (accumulate cmp k v acc).
Proof.
  unfold increasing_keys.
  induction acc as [|[k' [s n]] rest IH]; simpl; intros Hacc.
  - repeat constructor.
  - inversion Hacc as [|? ? Hrest Hhd]; subst.
    destruct (cmp k k') eqn:E.
    + constructor; assumption.
    + constructor; trivial. constructor; trivial.
      eapply Forall_impl; [|exact Hhd]. simpl. intros e He.
      eapply (cmp_trans _ Hcmp); eassumption.
    + constructor; auto.
      apply (accumulate_Forall_key (fun x => cmp k' x = Lt)); trivial.
      apply (cmp_gt _ Hcmp). assumption.
Qed.

Lemma increasing_head_fresh (e : K * (Q * Q * nat)) rest k :
  increasing_keys cmp (e :: rest) ->
  (cmp k (fst e) = Lt \/ k = fst e) -> ~ In k (map fst rest).
Proof.
  unfold increasing_keys. intros Hs Hk Hin.
  inversion Hs as [|? ? _ Hhd]; subst.
  apply in_map_iff in Hin. destruct Hin as [x [Hx Hin]].
  rewrite Forall_forall in Hhd. specialize (Hhd x Hin). rewrite Hx in Hhd.
  assert (Hlt : cmp k k = Lt).
  { destruct Hk as [Hk| ->]; trivial.
    eapply (cmp_trans _ Hcmp); eassumption. }
  rewrite (cmp_refl _ Hcmp) in Hlt. discriminate.
Qed.

Lemma increasing_NoDup (acc : list (K * (Q * Q * nat))) :
  increasing_keys cmp acc -> NoDup (map fst acc).
Proof.
  induction acc as [|e rest IH]; simpl; intros Hs.
  - constructor.
  - constructor.
    + eapply increasing_head_fresh; eauto.
    + apply IH. inversion Hs; assumption.
Qed.

Lemma accumulate_keys k v acc k0 :
  In k0 (map fst (accumulate cmp k v acc)) <-> k0 = k \/ In k0 (map fst acc).
Proof.
  induction acc as [|[k' [s n]] rest IH]; simpl.
  - intuition.
  - destruct (cmp k k') eqn:E; simpl.
    + apply (cmp_eq _ Hcmp) in E. subst. intuition.
    + intuition.
    + rewrite IH. intuition.
Qed.

(** Where an entry of the accumulator after a step comes from. *)
Lemma accumulate_In k v acc k0 s n :
  increasing_keys cmp acc ->
  In (k0, (s, n)) (accumulate cmp k v acc) ->
  (k0 <> k /\ In (k0, (s, n)) acc)
  \/ (k0 = k /\ s = kahan_step (0, 0)%Q v /\ n = 1%nat
      /\ ~ In k (map fst acc))
  \/ (k0 = k /\ exists s' n',
         In (k, (s', n')) acc /\ s = kahan_step s' v /\ n = S n').
Proof.
  induction acc as [|[k' [s' n']] rest IH]; simpl; intros Hs Hin.
  - destruct Hin as [Hin|[]]. inversion Hin; subst.
    right; left. intuition.
  - pose proof (increasing_head_fresh _ _ k Hs) as Hfresh. simpl in Hfresh.
    destruct (cmp k k') eqn:E.
    + apply (cmp_eq _ Hcmp) in E. subst k'.
      destruct Hin as [Hin|Hin].
      * inversion Hin; subst. right; right. split; trivial.
        exists s', n'. auto.
      * left. split; auto. intros ->. apply Hfresh; auto.
        apply in_map_iff. exists (k, (s, n)). auto.
    + assert (Hk' : k <> k').
      { intros ->. rewrite (cmp_refl _ Hcmp) in E. discriminate. }
      destruct Hin as [Hin|[Hin|Hin]].
      * inversion Hin; subst. right; left. repeat split; trivial.
        intros [Heq|Hin']; [congruence|]. apply Hfresh; auto.
      * inversion Hin; subst. left. auto.
      * left. split; auto. intros ->. apply Hfresh; auto.
        apply in_map_iff. exists (k, (s, n)). auto.
    + assert (Hk' : k' <> k).
      { intros ->. rewrite (cmp_refl _ Hcmp) in E. discriminate. }
      destruct Hin as [Hin|Hin].
      * inversion Hin; subst. left. auto.
      * assert (Hrest : increasing_keys cmp rest) by (inversion Hs; assumption).
        destruct (IH Hrest Hin) as [[Hne Hin']|[[-> [-> [-> Hnin]]]|[-> Hex]]].
        -- left. auto.
        -- right; left. repeat split; trivial.
           intros [Heq|Hin']; [congruence|auto].
        -- right; right. split; trivial.
           destruct Hex as [s1 [n1 [Hin' Heq]]]. exists s1, n1. auto.
Qed.
End GroupByFacts.

Section GroupByMeanFacts.
Context {K R : Type} (cmp : K -> K -> comparison) (Hcmp : StrictCompare cmp).
Context (key : R -> K) (val : R -> Q).

Lemma group_sums_snoc df r :
  group_sums cmp key val (df ++ [r])
  = accumulate cmp (key r) (val r) (group_sums cmp key val df).
Proof. unfold group_sums. rewrite fold_left_app. reflexivity. Qed.

Lemma group_values_snoc k df r :
  group_values cmp key val k (df ++ [r])
  = group_values cmp key val k df
    ++ (if key_eqb cmp (key r) k then [val r] else []).
Proof.
  unfold group_values. rewrite filter_app, map_app. simpl.
  destruct (key_eqb cmp (key r) k); reflexivity.
Qed.

Lemma group_values_absent k df :
  ~ In k (map key df) -> group_values cmp key val k df = [].
Proof.
  unfold group_values. induction df as [|r df IH]; simpl; intros Hn; trivial.
  destruct (key_eqb cmp (key r) k) eqn:E.
  - apply (key_eqb_true cmp Hcmp) in E. tauto.
  - apply IH. tauto.
Qed.

Lemma group_sums_increasing df :
  increasing_keys cmp (group_sums cmp key val df).
Proof.
  induction df as [|r df IH] using rev_ind.
  - constructor.
  - rewrite group_sums_snoc. apply accumulate_increasing; assumption.
Qed.

Lemma group_sums_keys df k :
  In k (map fst (group_sums cmp key val df)) <-> In k (map key df).
Proof.
  induction df as [|r df IH] using rev_ind.
  - simpl. tauto.
  - rewrite group_sums_snoc, (accumulate_keys cmp Hcmp), IH, map_app, in_app_iff.
    simpl. intuition.
Qed.

(** The running sum, compensation and count of a group are those of the
    values of its rows, taken alone and in order. *)
Lemma group_sums_entry df k s n :
  In (k, (s, n)) (group_sums cmp key val df) ->
  s = fold_left kahan_step (group_values cmp key val k df) (0, 0)%Q
  /\ n = length (group_values cmp key val k df).
Proof.
  revert k s n. induction df as [|r df IH] using rev_ind; intros k s n Hin.
  - destruct Hin.
  - rewrite group_sums_snoc in Hin. rewrite group_values_snoc.
    apply (accumulate_In cmp Hcmp) in Hin; [|apply group_sums_increasing].
    destruct Hin as [[Hne Hin]|[[-> [-> [-> Hnin]]]|[-> [s' [n' [Hin [-> ->]]]]]]].
    + destruct (key_eqb cmp (key r) k) eqn:E.
      * apply (key_eqb_true cmp Hcmp) in E. congruence.
      * rewrite app_nil_r. apply IH. assumption.
    + rewrite group_sums_keys in Hnin.
      rewrite (group_values_absent _ _ Hnin).
      assert (E : key_eqb cmp (key r) (key r) = true)
        by (apply (key_eqb_true cmp Hcmp); reflexivity).
      rewrite E. simpl. split; reflexivity.
    + assert (E : key_eqb cmp (key r) (key r) = true)
        by (apply (key_eqb_true cmp Hcmp); reflexivity).
      rewrite E. destruct (IH _ _ _ Hin) as [Hs Hn].
      rewrite fold_left_app, length_app, <- Hn, <- Hs. simpl.
      split; [reflexivity | lia].
Qed.

Lemma groupby_mean_keys_eq df :
  map fst (groupby_mean cmp key val df)
  = map fst (group_sums cmp key val df).
Proof. unfold groupby_mean. rewrite map_map. reflexivity. Qed.

(** One row per group. *)
Lemma groupby_mean_NoDup df : NoDup (map fst (groupby_mean cmp key val df)).
Proof.
  rewrite groupby_mean_keys_eq.
  apply (increasing_NoDup cmp Hcmp), group_sums_increasing.
Qed.

(** The groups are the keys present in the frame. *)
Lemma groupby_mean_keys df k :
  In k (map fst (groupby_mean cmp key val df)) <-> In k (map key df).
Proof. rewrite groupby_mean_keys_eq. apply group_sums_keys. Qed.

(** Each group's value is the float64 mean of its rows' values. *)
Lemma groupby_mean_value df k a :
  In (k, a) (groupby_mean cmp key val df) ->
  a = float64_mean (group_values cmp key val k df).
Proof.
  unfold groupby_mean. rewrite in_map_iff.
  intros [[k' [s n]] [Heq Hin]]. simpl in Heq. inversion Heq; subst.
  destruct (group_sums_entry _ _ _ _ Hin) as [Hs Hn].
  unfold float64_mean. rewrite <- Hn, <- Hs. reflexivity.
Qed.

(** The groups come out in increasing key order. *)
Lemma groupby_mean_increasing df :
  increasing_keys cmp (groupby_mean cmp key val df).
Proof.
  unfold groupby_mean.
  pose proof (group_sums_increasing df) as H. revert H.
  unfold increasing_keys.
  induction (group_sums cmp key val df) as [|e l IH]; simpl; intros H.
  - constructor.
  - inversion H as [|? ? Hl Hhd]; subst. constructor; auto.
    rewrite Forall_map. exact Hhd.
Qed.
End GroupByMeanFacts.

(** ** Sorting by a column *)

Section SortValuesFacts.
Context {A : Type} (by_col : A -> Q).

Lemma insert_sorted_perm x l :
  Permutation (x :: l) (insert_sorted by_col x l).
Proof.
  induction l as [|y t IH]; simpl.
  - reflexivity.
  - destruct (Qle_bool (by_col x) (by_col y)).
    + reflexivity.
    + rewrite perm_swap. constructor. exact IH.
Qed.

Lemma sort_values_perm l : Permutation l (sort_values by_col l).
Proof.
  induction l as [|x l IH]; simpl.
  - constructor.
  - rewrite <- insert_sorted_perm. constructor. exact IH.
Qed.

Lemma insert_sorted_nondecreasing x l :
  nondecreasing by_col l -> nondecreasing by_col (insert_sorted by_col x l).
Proof.
  unfold nondecreasing.
  induction l as [|y t IH]; simpl; intros Hl.
  - repeat constructor.
  - inversion Hl as [|? ? Ht Hy]; subst.
    destruct (Qle_bool (by_col x) (by_col y)) eqn:E.
    + apply Qle_bool_iff in E. constructor; trivial.
      constructor; trivial.
      eapply Forall_impl; [|exact Hy]. simpl. intros z Hz.
      eapply Qle_trans; eassumption.
    + assert (Hyx : (by_col y <= by_col x)%Q).
      { apply Qlt_le_weak, Qnot_le_lt. rewrite <- Qle_bool_iff, E.
        discriminate. }
      constructor; auto.
      eapply Permutation_Forall; [apply insert_sorted_perm|].
      constructor; assumption.
Qed.

Lemma sort_values_nondecreasing l :
  nondecreasing by_col (sort_values by_col l).
Proof.
  induction l as [|x l IH]; simpl.
  - constructor.
  - apply insert_sorted_nondecreasing. exact IH.
Qed.

Lemma nondecreasing_map l :
  nondecreasing by_col l -> StronglySorted Qle (map by_col l).
Proof.
  unfold nondecreasing. induction 1 as [|x l Hl IH Hx]; simpl.
  - constructor.
  - constructor; trivial. rewrite Forall_map. exact Hx.
Qed.
End SortValuesFacts.

(** ** Membership and masks *)

Lemma isin_In (values : list string) (x : string) :
  isin values x = true <-> In x values.
Proof.
  unfold isin. rewrite existsb_exists. split.
  - intros [y [Hin Heq]]. apply String.eqb_eq in Heq. subst. assumption.
  - intros Hin. exists x. split; trivial. apply String.eqb_refl.
Qed.

Lemma isin_empty (x : string) : isin [] x = false.
Proof. reflexivity. Qed.

Lemma select_select {R} (p q : R -> bool) (df : list R) :
  select q (select p df) = select (fun r => p r && q r) df.
Proof.
  unfold select. induction df as [|r df IH]; simpl; trivial.
  destruct (p r); simpl; [destruct (q r)|]; rewrite IH; reflexivity.
Qed.

Lemma select_false {R} (p : R -> bool) (df : list R) :
  (forall r, p r = false) -> select p df = [].
Proof.
  unfold select. intros Hp. induction df as [|r df IH]; simpl; trivial.
  rewrite Hp. exact IH.
Qed.

Lemma bool_eq_by_iff (a b : bool) : (a = true <-> b = true) -> a = b.
Proof. destruct a, b; intuition congruence. Qed.

Lemma string_key_eqb (a b : string) :
  key_eqb string_compare a b = String.eqb a b.
Proof.
  apply bool_eq_by_iff.
  rewrite (key_eqb_true _ string_compare_strict), String.eqb_eq. tauto.
Qed.

Lemma level_key_eqb (r : Naplan.row) (s : string) (y : Z) (l : string) :
  key_eqb level_compare (level_key_of r) (s, y, l)
  = String.eqb (Naplan.school_name r) s
    && Z.eqb (Naplan.results_year r) y
    && String.eqb (Naplan.year_level r) l.
Proof.
  apply bool_eq_by_iff.
  rewrite (key_eqb_true _ level_compare_strict), !andb_true_iff,
    !String.eqb_eq, Z.eqb_eq.
  unfold level_key_of. split.
  - intros H. inversion H. auto.
  - intros [[-> ->] ->]. reflexivity.
Qed.

Lemma groupby_mean_empty {K R} (cmp : K -> K -> comparison)
    (key : R -> K) (val : R -> Q) :
  groupby_mean cmp key val [] = [].
Proof. reflexivity. Qed.

Lemma in_map_select {R K} (key : R -> K) (p : R -> bool) (df : list R) (k : K) :
  In k (map key (select p df))
  <-> exists r, In r df /\ p r = true /\ key r = k.
Proof.
  unfold select. rewrite in_map_iff. split.
  - intros [r [Hk Hin]]. apply filter_In in Hin. exists r. tauto.
  - intros [r [Hin [Hp Hk]]]. exists r. rewrite filter_In. tauto.
Qed.

(** ** Historical Performance *)

(** C1, with the mean the code computes.  With domain "All", for every school selection
    the plotted frame is the grouped frame of the source rows of the
    selected schools: its keys (school_name, results_year, year_level) are
    pairwise distinct, they are exactly the combinations present among the
    source rows of the selected schools, and the avg of each output row is
    the float64 mean of the avg of all source rows of a selected school
    with that school, year and level: their compensated sum in row order
    divided by their number, every operation rounded to the nearest
    float64. *)
Theorem historical_all_grouped_float_mean
    (st : Store) (sel : option (list string)) :
  exists rows,
    results_data (fst (update_naplan_results_per_year sel (Some "All") st))
    = Averaged rows
    /\ NoDup (map fst rows)
    /\ (forall s y l,
          In (s, y, l) (map fst rows)
          <-> exists r, In r (naplan_results_df st)
                        /\ In (Naplan.school_name r) (or_empty sel)
                        /\ level_key_of r = (s, y, l))
    /\ Forall
         (fun row =>
            let '(s, y, l, a) := row in
            a = float64_mean
                  (map Naplan.avg
                     (select
                        (fun r =>
                           isin (or_empty sel) (Naplan.school_name r)
                           && (String.eqb (Naplan.school_name r) s
                               && Z.eqb (Naplan.results_year r) y
                               && String.eqb (Naplan.year_level r) l))
                        (naplan_results_df st))))
         rows.
Proof.
  unfold update_naplan_results_per_year, bind, read, ret. simpl.
  unfold naplan_plot_df. simpl.
  eexists. split; [reflexivity|].
  set (df := select _ (naplan_results_df st)).
  split; [|split].
  - apply (groupby_mean_NoDup _ level_compare_strict).
  - intros s y l.
    rewrite (groupby_mean_keys _ level_compare_strict). unfold df.
    rewrite in_map_select. split; intros [r [Hin [Hsel Hk]]]; exists r.
    + apply isin_In in Hsel. auto.
    + apply isin_In in Hsel. auto.
  - apply Forall_forall. intros [[[s y] l] a] Hin.
    apply (groupby_mean_value _ level_compare_strict) in Hin.
    rewrite Hin. unfold group_values, df.
    change (filter ?p (select ?q ?d)) with (select p (select q d)).
    rewrite select_select.
    unfold select. erewrite filter_ext; [reflexivity|].
    intros r. simpl. rewrite level_key_eqb. reflexivity.
Qed.

(** C1 with the arithmetic mean fails: for school A with the three scores
    0.1, 0.2 and 0.3 in one year and level, the avg of the one output row
    is the float64 0.19999999999999998, which is not the arithmetic mean
    of the three scores. *)
Lemma historical_all_mean_not_arithmetic :
  let rows := [Naplan.mk "A" "Reading" 2020 "Year 5" (1 # 10);
               Naplan.mk "A" "Writing" 2020 "Year 5" (2 # 10);
               Naplan.mk "A" "Spelling" 2020 "Year 5" (3 # 10)] in
  exists a,
    results_data
      (fst (update_naplan_results_per_year (Some ["A"]) (Some "All")
              (mkStore [] rows [])))
    = Averaged [("A", 2020, "Year 5", a)]
    /\ a = (7205759403792793 # 36028797018963968)%Q
    /\ ~ (a == arithmetic_mean (map Naplan.avg rows))%Q.
Proof.
  intros rows. eexists. split; [vm_compute; reflexivity|].
  split; [reflexivity|].
  intros H. vm_compute in H. discriminate H.
Qed.

(** C2. With a domain label other than "All", for every school selection
    the plotted frame is ungrouped: it is the source frame masked by
    "school_name in the selection and domain equal to the selected one",
    so that a row is plotted exactly when it is such a source row, with
    its values unchanged. *)
Theorem historical_domain_unaggregated
    (st : Store) (sel : option (list string)) (d : string) :
  d <> "All" ->
  exists rows,
    results_data (fst (update_naplan_results_per_year sel (Some d) st))
    = Unaggregated rows
    /\ rows = filter (fun r => isin (or_empty sel) (Naplan.school_name r)
                                && String.eqb (Naplan.domain r) d)
                     (naplan_results_df st)
    /\ (forall r, In r rows
                  <-> In r (naplan_results_df st)
                      /\ In (Naplan.school_name r) (or_empty sel)
                      /\ Naplan.domain r = d).
Proof.
  intros Hd.
  unfold update_naplan_results_per_year, bind, read, ret. simpl.
  unfold naplan_plot_df. simpl.
  apply String.eqb_neq in Hd. rewrite Hd.
  eexists. split; [reflexivity|]. split; [reflexivity|].
  intros r. unfold select. rewrite filter_In, andb_true_iff, isin_In.
  simpl. rewrite String.eqb_eq. tauto.
Qed.

Lemma historical_domain_unaggregated_witness :
  exists rows,
    results_data
      (fst (update_naplan_results_per_year (Some ["A"]) (Some "Reading")
              (mkStore []
                 [Naplan.mk "A" "Reading" 2020 "Year 5" (50#1);
                  Naplan.mk "A" "Writing" 2020 "Year 5" (60#1);
                  Naplan.mk "B" "Reading" 2020 "Year 5" (70#1)] [])))
    = Unaggregated rows
    /\ rows = [Naplan.mk "A" "Reading" 2020 "Year 5" (50#1)].
Proof.
  destruct (historical_domain_unaggregated
              (mkStore []
                 [Naplan.mk "A" "Reading" 2020 "Year 5" (50#1);
                  Naplan.mk "A" "Writing" 2020 "Year 5" (60#1);
                  Naplan.mk "B" "Reading" 2020 "Year 5" (70#1)] [])
              (Some ["A"]) "Reading") as [rows [H1 [H2 _]]].
  - discriminate.
  - exists rows. split; [exact H1|]. rewrite H2. reflexivity.
Defined.

(** ** Top Schools *)

Lemma ranking_avg_sorted (df : list Naplan.row) (y : year_value) :
  StronglySorted Qle (ranking_avg (top_ranked_plot_df df y)).
Proof.
  unfold top_ranked_plot_df.
  destruct (year_is_all y); simpl;
    apply nondecreasing_map, sort_values_nondecreasing.
Qed.

(** C3, with the mean the code computes.  For every year input the avg column of the
    ranked frame is non-decreasing from top to bottom; and for the year
    input "All" the frame has one row per school of the source, no school
    twice, whose avg is the float64 mean of the avg of all source rows of
    that school: their compensated sum in row order divided by their
    number, every operation rounded to the nearest float64. *)
Theorem top_schools_sorted_and_all_float_mean (st : Store) :
  (forall y : year_value,
      StronglySorted Qle
        (ranking_avg (ranking_data (fst (update_top_ranked_schools y st)))))
  /\ exists rows,
       ranking_data (fst (update_top_ranked_schools (YearLabel "All") st))
       = BySchool rows
       /\ NoDup (map fst rows)
       /\ (forall s, In s (map fst rows)
                     <-> In s (map Naplan.school_name (naplan_results_df st)))
       /\ Forall
            (fun row =>
               snd row =
               float64_mean
                 (map Naplan.avg
                    (select (fun r => String.eqb (Naplan.school_name r) (fst row))
                       (naplan_results_df st))))
            rows.
Proof.
  split.
  - intros y. apply ranking_avg_sorted.
  - unfold update_top_ranked_schools, bind, read, ret. simpl.
    unfold top_ranked_plot_df. simpl.
    eexists. split; [reflexivity|].
    set (df := naplan_results_df st).
    set (g := groupby_mean string_compare Naplan.school_name Naplan.avg df).
    pose proof (sort_values_perm snd g) as Hperm.
    split; [|split].
    + eapply Permutation_NoDup.
      * apply Permutation_map. exact Hperm.
      * apply (groupby_mean_NoDup _ string_compare_strict).
    + intros s.
      rewrite <- (groupby_mean_keys _ string_compare_strict
                    Naplan.school_name Naplan.avg df s).
      fold g. split; apply Permutation_in; apply Permutation_map;
        [symmetry|]; exact Hperm.
    + apply Forall_forall. intros [s a] Hin. simpl.
      apply (Permutation_in _ (Permutation_sym Hperm)) in Hin.
      apply (groupby_mean_value _ string_compare_strict) in Hin.
      rewrite Hin. unfold group_values, select.
      erewrite filter_ext; [reflexivity|].
      intros r. simpl. apply string_key_eqb.
Qed.

(** C3 with the arithmetic mean fails: a school whose three rows all score
    400.1 is ranked with the avg 400.10000000000002, the next float64
    above 400.1, which is not the arithmetic mean of its scores. *)
Lemma top_schools_all_mean_not_arithmetic :
  let rows := [Naplan.mk "A" "Reading" 2019 "Year 3" (4001 # 10);
               Naplan.mk "A" "Reading" 2020 "Year 3" (4001 # 10);
               Naplan.mk "A" "Reading" 2021 "Year 3" (4001 # 10)] in
  exists a,
    ranking_data
      (fst (update_top_ranked_schools (YearLabel "All") (mkStore [] rows [])))
    = BySchool [("A", a)]
    /\ a = (7038633636370843 # 17592186044416)%Q
    /\ ~ (a == arithmetic_mean (map Naplan.avg rows))%Q.
Proof.
  intros rows. eexists. split; [vm_compute; reflexivity|].
  split; [reflexivity|].
  intros H. vm_compute in H. discriminate H.
Qed.

(** ** Income Distribution and Recurrent Income Trend *)

Lemma update_income_distribution_returned
    (st : Store) (sel : option (list string)) (fig : IncomeFigure) :
  fst (update_income_distribution sel st) = Returned fig ->
  income_data fig = fst (income_distribution_plot_df sel st)
  /\ income_height fig = layout_height (or_empty sel).
Proof.
  unfold update_income_distribution, income_distribution_plot_df, bind, read,
    ret. simpl.
  destruct (vertical_spacing_fits _ _); simpl; intros H; inversion H.
  split; reflexivity.
Qed.

(** C4. For every school selection, every row of the frame plotted by the
    Income Distribution callback has a "Net recurrent income" label
    different from "Total gross income", that label is one of the four
    funding-source categories, and its school_name is in the selection;
    the figure the callback returns carries that frame. *)
Theorem income_distribution_rows (st : Store) (sel : option (list string)) :
  Forall
    (fun r =>
       Income.net_recurrent_income r <> "Total gross income"
       /\ In (Income.net_recurrent_income r)
             [ "Australian government recurrent funding";
               "State / territory government recurring funding";
               "Fees, charges and parent contributions";
               "Other private sources" ]
       /\ In (Income.school_name r) (or_empty sel))
    (fst (income_distribution_plot_df sel st))
  /\ match fst (update_income_distribution sel st) with
     | Returned fig =>
         income_data fig = fst (income_distribution_plot_df sel st)
     | Raised _ => True
     end.
Proof.
  split.
  - unfold income_distribution_plot_df, bind, read, ret. simpl.
    unfold income_plot_df, select. apply Forall_forall. intros r Hin.
    apply filter_In in Hin. destruct Hin as [_ Hmask].
    apply andb_true_iff in Hmask. destruct Hmask as [Hlabel Hschool].
    apply isin_In in Hlabel. apply isin_In in Hschool.
    split; [|split]; trivial.
    intros Heq. rewrite Heq in Hlabel. simpl in Hlabel.
    repeat (destruct Hlabel as [Hlabel|Hlabel]; [discriminate|]).
    exact Hlabel.
  - destruct (fst (update_income_distribution sel st)) as [fig|e] eqn:E;
      [|exact I].
    apply update_income_distribution_returned. exact E.
Qed.

(** C5. For every school selection, every row plotted by the Recurrent
    Income Trend callback has "Net recurrent income" equal to "Total gross
    income" and its school_name in the selection, and the plotted rows are
    exactly the source rows with both properties, ungrouped and in source
    order. *)
Theorem recurrent_income_rows (st : Store) (sel : option (list string)) :
  let rows := income_data (fst (update_recurrent_income sel st)) in
  Forall
    (fun r =>
       Income.net_recurrent_income r = "Total gross income"
       /\ In (Income.school_name r) (or_empty sel))
    rows
  /\ rows = filter (fun r => String.eqb (Income.net_recurrent_income r)
                                       "Total gross income"
                             && isin (or_empty sel) (Income.school_name r))
                  (recurrent_income_df st)
  /\ (forall r, In r rows
                <-> In r (recurrent_income_df st)
                    /\ Income.net_recurrent_income r = "Total gross income"
                    /\ In (Income.school_name r) (or_empty sel)).
Proof.
  unfold update_recurrent_income, bind, read, ret. simpl.
  unfold income_plot_df, select, trend_income_fields.
  assert (Hmask : forall r,
             In r (filter
                     (fun r => isin ["Total gross income"]
                                 (Income.net_recurrent_income r)
                               && isin (or_empty sel) (Income.school_name r))
                     (recurrent_income_df st))
             <-> In r (recurrent_income_df st)
                 /\ Income.net_recurrent_income r = "Total gross income"
                 /\ In (Income.school_name r) (or_empty sel)).
  { intros r. rewrite filter_In, andb_true_iff, !isin_In. simpl.
    intuition congruence. }
  split; [|split].
  - apply Forall_forall. intros r Hin. apply Hmask in Hin. tauto.
  - apply filter_ext. intros r. unfold isin at 1. simpl.
    rewrite orb_false_r. reflexivity.
  - exact Hmask.
Qed.

Lemma vertical_spacing_fits_fifth (rows : nat) :
  vertical_spacing_fits rows (2 # 10) = (rows <=? 6)%nat.
Proof.
  do 7 (destruct rows as [|rows]; [reflexivity|]).
  unfold vertical_spacing_fits.
  change (S (S (S (S (S (S (S rows)))))) <=? 6)%nat with false.
  change (S (S (S (S (S (S (S rows)))))) <=? 1)%nat with false.
  change (Qle_bool 0 (2 # 10) && Qle_bool (2 # 10) 1) with true.
  simpl orb. simpl andb.
  destruct (Qle_bool (2 # 10)
              (1 / inject_Z (Z.of_nat (S (S (S (S (S (S (S rows))))))) - 1)))
    eqn:E; trivial.
  apply Qle_bool_iff in E. exfalso.
  remember (Z.of_nat (S (S (S (S (S (S (S rows))))))) - 1) as z eqn:Hz.
  assert (Hz6 : 6 <= z) by lia.
  destruct z as [|z|z]; try lia.
  unfold Qle in E. simpl in E. lia.
Qed.

(** C8.  Both income callbacks set the layout height to max(300 * n, 300)
    for a selection of n schools, but the Income Distribution callback
    gets there only while plotly accepts its facet grid: the Recurrent
    Income Trend figure has that height for every selection; the Income
    Distribution callback returns a figure of that height when at most six
    selected schools have rows to plot, and raises ValueError, returning
    no figure, when seven or more have. *)
Theorem income_chart_height_or_error (st : Store) (sel : option (list string)) :
  let n := Z.of_nat (length (or_empty sel)) in
  let facets :=
    facet_rows
      (map Income.school_name (fst (income_distribution_plot_df sel st))) in
  income_height (fst (update_recurrent_income sel st)) = Z.max (300 * n) 300
  /\ income_height (fst (update_recurrent_income sel st))
     = (if Z.eqb n 0 then 300 else 300 * n)
  /\ update_income_distribution sel st
     = (if (facets <=? 6)%nat
        then Returned
               {| income_data := fst (income_distribution_plot_df sel st);
                  income_height := Z.max (300 * n) 300 |}
        else Raised ValueError,
        st).
Proof.
  intros n facets.
  assert (Ht : income_height (fst (update_recurrent_income sel st))
               = layout_height (or_empty sel)) by reflexivity.
  rewrite Ht. unfold layout_height. fold n.
  assert (Hn : 0 <= n) by apply Nat2Z.is_nonneg.
  split; [reflexivity|]. split.
  - destruct (Z.eqb_spec n 0) as [Hz|Hne]; lia.
  - unfold update_income_distribution, bind.
    unfold income_distribution_plot_df at 1. unfold bind, read, ret.
    rewrite vertical_spacing_fits_fifth.
    unfold facets, income_distribution_plot_df, bind, read, ret. simpl fst.
    destruct (_ <=? 6)%nat; reflexivity.
Qed.

(** C8 at seven schools with rows to plot: the Income Distribution
    callback raises ValueError where a chart of height 2100 is specified,
    and the Recurrent Income Trend callback returns that height. *)
Lemma income_distribution_seven_schools_raise :
  let fee s := Income.mk s 2020 "Other private sources" (100 # 1) in
  let sel := ["A"; "B"; "C"; "D"; "E"; "F"; "G"] in
  let st := mkStore [] [] (map fee sel) in
  update_income_distribution (Some sel) st = (Raised ValueError, st)
  /\ income_height (fst (update_recurrent_income (Some sel) st)) = 2100.
Proof.
  intros fee sel st. split.
  - rewrite (proj2 (proj2 (income_chart_height_or_error st (Some sel)))).
    reflexivity.
  - reflexivity.
Defined.

(** ** Empty selections *)

Lemma naplan_plot_df_empty_selection (df : list Naplan.row) (d : option string) :
  frame_length (naplan_plot_df df [] d) = 0%nat.
Proof.
  unfold naplan_plot_df.
  destruct (domain_is_all d); simpl; rewrite select_false; trivial.
Qed.

Lemma income_plot_df_empty_selection (fields : list string) (df : list Income.row) :
  income_plot_df fields df [] = [].
Proof.
  unfold income_plot_df. apply select_false. intros r.
  rewrite isin_empty. apply andb_false_r.
Qed.

(** C6. With an empty school selection (absent or the empty list) each of
    the three callbacks that take a selection returns a figure, raising
    nothing, with no data row, and leaves the datasets as they were.  The Top-Schools
    callback receives the results-year input only, so two input states
    that agree on it give the same figure whatever the school selections
    are; on an empty results frame, and on a cleared year input, it returns
    a figure with no row. *)
Theorem empty_selection_no_rows
    (st : Store) (sel : option (list string)) (d : option string) :
  or_empty sel = [] ->
  (exists fig, update_income_distribution sel st = (Returned fig, st)
               /\ length (income_data fig) = 0%nat)
  /\ (exists fig, update_recurrent_income sel st = (fig, st)
                  /\ length (income_data fig) = 0%nat)
  /\ (exists fig, update_naplan_results_per_year sel d st = (fig, st)
                  /\ frame_length (results_data fig) = 0%nat)
  /\ (forall i i', results_year i = results_year i' ->
                   render_top_schools i st = render_top_schools i' st)
  /\ (forall y, naplan_results_df st = [] ->
                exists fig, update_top_ranked_schools y st = (fig, st)
                            /\ ranking_length (ranking_data fig) = 0%nat)
  /\ (exists fig, update_top_ranked_schools YearCleared st = (fig, st)
                  /\ ranking_length (ranking_data fig) = 0%nat).
Proof.
  intros Hsel.
  unfold update_income_distribution, income_distribution_plot_df,
    update_recurrent_income,
    update_naplan_results_per_year, update_top_ranked_schools,
    render_top_schools, update_top_ranked_schools, bind, read, ret.
  rewrite Hsel.
  split; [|split; [|split; [|split; [|split]]]].
  - rewrite income_plot_df_empty_selection. simpl.
    eexists. split; reflexivity.
  - eexists. split; [reflexivity|]. simpl.
    rewrite income_plot_df_empty_selection. reflexivity.
  - eexists. split; [reflexivity|]. simpl.
    apply naplan_plot_df_empty_selection.
  - intros i i' Hy. rewrite Hy. reflexivity.
  - intros y Hdf. eexists. split; [reflexivity|]. simpl. rewrite Hdf.
    unfold top_ranked_plot_df. destruct (year_is_all y); reflexivity.
  - eexists. split; [reflexivity|]. simpl.
    unfold top_ranked_plot_df. simpl. rewrite select_false; reflexivity.
Qed.

Lemma empty_selection_no_rows_witness :
  let st := mkStore [] [Naplan.mk "A" "Reading" 2020 "Year 5" (50#1)]
              [Income.mk "A" 2020 "Total gross income" (1000#1)] in
  or_empty (Some []) = []
  /\ (exists fig, update_income_distribution (Some []) st = (Returned fig, st)
                  /\ length (income_data fig) = 0%nat)
  /\ (exists fig, update_recurrent_income (Some []) st = (fig, st)
                  /\ length (income_data fig) = 0%nat)
  /\ (exists fig, update_naplan_results_per_year (Some []) (Some "All") st
                  = (fig, st)
                  /\ frame_length (results_data fig) = 0%nat).
Proof.
  intros st.
  destruct (empty_selection_no_rows st (Some []) (Some "All") eq_refl)
    as [H1 [H2 [H3 _]]].
  split; [reflexivity|]. split; [exact H1|]. split; [exact H2|exact H3].
Defined.

(** ** Determinism *)

Lemma twice_reads_only {A} (m : App A) (st : Store) :
  snd (m st) = st -> twice m st = ((fst (m st), fst (m st)), st).
Proof.
  unfold twice, bind, ret. destruct (m st) as [a st'] eqn:E. simpl.
  intros ->. rewrite E. reflexivity.
Qed.

Lemma update_income_distribution_store
    (sel : option (list string)) (st : Store) :
  snd (update_income_distribution sel st) = st.
Proof.
  unfold update_income_distribution, income_distribution_plot_df, bind, read,
    ret.
  destruct (vertical_spacing_fits _ _); reflexivity.
Qed.

(** C7. Each of the four callbacks, run twice in a row on the same
    datasets with the same input values, returns the same figure both
    times and leaves the datasets as they were. *)
Theorem callbacks_deterministic (i : Inputs) (st : Store) :
  (exists fig, twice (render_average_naplan_results i) st = ((fig, fig), st))
  /\ (exists fig, twice (render_top_schools i) st = ((fig, fig), st))
  /\ (exists fig, twice (render_income_distribution i) st = ((fig, fig), st))
  /\ (exists fig, twice (render_recurrent_income i) st = ((fig, fig), st)).
Proof.
  split; [|split; [|split]]; try (eexists; reflexivity).
  exists (fst (render_income_distribution i st)).
  apply twice_reads_only. apply update_income_distribution_store.
Qed.

(** ** Background of the Historical Performance chart *)

(** C9. The Historical Performance callback plots no row for an absent
    selection and for the empty list alike, but it sets the white
    background for the absent selection only: with the empty list the
    background is "#e5ecf6", the one of a non-empty selection. *)
Theorem historical_empty_list_background
    (st : Store) (d : option string) (s : string) (l : list string) :
  let absent := fst (update_naplan_results_per_year None d st) in
  let cleared := fst (update_naplan_results_per_year (Some []) d st) in
  let chosen := fst (update_naplan_results_per_year (Some (s :: l)) d st) in
  frame_length (results_data absent) = 0%nat
  /\ frame_length (results_data cleared) = 0%nat
  /\ plot_bgcolor absent = "white"
  /\ plot_bgcolor cleared = "#e5ecf6"
  /\ plot_bgcolor chosen = plot_bgcolor cleared.
Proof.
  unfold update_naplan_results_per_year, bind, read, ret. simpl.
  rewrite naplan_plot_df_empty_selection. auto.
Qed.

(** ** Independence of the skill dropdown *)

(** C10. The Top-Schools figure does not depend on the value of the skill
    dropdown of its tab: whatever two values the dropdown takes, with the
    other inputs and the datasets unchanged, the callback returns the same
    figure. *)
Theorem top_schools_ignores_skill
    (i : Inputs) (skill skill' : option string) (st : Store) :
  render_top_schools (set_top_n_skill_selection skill i) st
  = render_top_schools (set_top_n_skill_selection skill' i) st.
Proof. reflexivity. Qed.

(** ** Worked scenarios *)

(** Schools A and B with Reading scores 50 and 70 in 2020 at "Year 5":
    with domain "All" and both schools selected the plotted frame has the
    two rows (A, 2020, Year 5, 50) and (B, 2020, Year 5, 70). *)
Example scenario_two_schools_all :
  results_data
    (fst (update_naplan_results_per_year (Some ["A"; "B"]) (Some "All")
            (mkStore []
               [Naplan.mk "A" "Reading" 2020 "Year 5" (50#1);
                Naplan.mk "B" "Reading" 2020 "Year 5" (70#1)] [])))
  = Averaged [("A", 2020, "Year 5", 50#1); ("B", 2020, "Year 5", 70#1)].
Proof. vm_compute. reflexivity. Qed.

(** Two schools with means 60 and 40: the ranking for "All" lists the
    lower one first. *)
Example scenario_ranking_order :
  ranking_data
    (fst (update_top_ranked_schools (YearLabel "All")
            (mkStore []
               [Naplan.mk "School_high" "Reading" 2020 "Year 5" (60#1);
                Naplan.mk "School_low" "Reading" 2020 "Year 5" (40#1)] [])))
  = BySchool [("School_low", 40#1); ("School_high", 60#1)].
Proof. vm_compute. reflexivity. Qed.

(** A cleared multi dropdown sends the empty list: the frame is empty and
    the background is the one of a chart with schools selected. *)
Example scenario_cleared_selection_background :
  plot_bgcolor
    (fst (update_naplan_results_per_year (Some []) (Some "All")
            (mkStore [] [Naplan.mk "A" "Reading" 2020 "Year 5" (50#1)] [])))
  = plot_bgcolor
      (fst (update_naplan_results_per_year (Some ["A"]) (Some "All")
              (mkStore [] [Naplan.mk "A" "Reading" 2020 "Year 5" (50#1)] []))).
Proof. reflexivity. Qed.

(** * Further properties of the callbacks *)

(** ** Top Schools for one year *)

Lemma groupby_mean_nil_iff {K R} (cmp : K -> K -> comparison)
    (Hcmp : StrictCompare cmp) (key : R -> K) (val : R -> Q) (df : list R) :
  groupby_mean cmp key val df = [] <-> df = [].
Proof.
  split.
  - intros Hout. destruct df as [|r df]; trivial. exfalso.
    assert (Hin : In (key r) (map fst (groupby_mean cmp key val (r :: df)))).
    { apply (groupby_mean_keys cmp Hcmp). simpl. auto. }
    rewrite Hout in Hin. destruct Hin.
  - intros ->. reflexivity.
Qed.

Lemma sort_values_length {A} (by_col : A -> Q) (l : list A) :
  length (sort_values by_col l) = length l.
Proof. symmetry. apply Permutation_length, sort_values_perm. Qed.

Lemma school_year_compare_strict :
  StrictCompare (pair_compare string_compare Z.compare).
Proof.
  apply pair_compare_strict;
    [exact string_compare_strict | exact Z_compare_strict].
Qed.

Lemma school_year_key_eqb (r : Naplan.row) (s : string) (y : Z) :
  key_eqb (pair_compare string_compare Z.compare)
    (Naplan.school_name r, Naplan.results_year r) (s, y)
  = String.eqb (Naplan.school_name r) s && Z.eqb (Naplan.results_year r) y.
Proof.
  apply bool_eq_by_iff.
  rewrite (key_eqb_true _ school_year_compare_strict), andb_true_iff,
    String.eqb_eq, Z.eqb_eq.
  split.
  - intros H. inversion H. auto.
  - intros [-> ->]. reflexivity.
Qed.

(** X1. For a year of the data as input, the ranked frame carries that
    year in every row, lists no school twice, lists exactly the schools
    that have a source row in that year, and gives each the float64 mean
    of the avg of its source rows of that year (their compensated sum in
    row order divided by their number, every operation rounded). *)
Theorem top_schools_year_mean (st : Store) (y : Z) :
  exists rows,
    ranking_data (fst (update_top_ranked_schools (YearNumber y) st))
    = BySchoolYear rows
    /\ Forall (fun row => snd (fst row) = y) rows
    /\ NoDup (map (fun row => fst (fst row)) rows)
    /\ (forall s,
          In s (map (fun row => fst (fst row)) rows)
          <-> exists r, In r (naplan_results_df st)
                        /\ Naplan.school_name r = s
                        /\ Naplan.results_year r = y)
    /\ Forall
         (fun row =>
            snd row =
            float64_mean
              (map Naplan.avg
                 (select (fun r => String.eqb (Naplan.school_name r)
                                     (fst (fst row))
                                   && Z.eqb (Naplan.results_year r) y)
                    (naplan_results_df st))))
         rows.
Proof.
  unfold update_top_ranked_schools, bind, read, ret. simpl.
  unfold top_ranked_plot_df. simpl.
  eexists. split; [reflexivity|].
  set (df := select _ (naplan_results_df st)).
  set (key := fun r : Naplan.row => (Naplan.school_name r, Naplan.results_year r)).
  set (g := groupby_mean _ key Naplan.avg df).
  pose proof (sort_values_perm snd g) as Hperm.
  assert (Hkeys : forall k, In k (map fst (sort_values snd g))
                            <-> In k (map key df)).
  { intros k. unfold g.
    rewrite <- (groupby_mean_keys _ school_year_compare_strict key Naplan.avg df k).
    split; apply Permutation_in; apply Permutation_map;
      [symmetry|]; exact Hperm. }
  assert (Hyear : Forall (fun row : string * Z * Q => snd (fst row) = y)
                    (sort_values snd g)).
  { apply Forall_forall. intros [[s y'] a] Hin. simpl.
    assert (Hk : In (s, y') (map fst (sort_values snd g))).
    { apply in_map_iff. exists (s, y', a). auto. }
    apply Hkeys in Hk. unfold df in Hk. apply in_map_select in Hk.
    destruct Hk as [r [_ [Hy Hk]]]. unfold key in Hk. inversion Hk; subst.
    apply Z.eqb_eq. exact Hy. }
  assert (Hnodup : NoDup (map fst (sort_values snd g))).
  { eapply Permutation_NoDup.
    - apply Permutation_map. exact Hperm.
    - apply (groupby_mean_NoDup _ school_year_compare_strict). }
  split; [exact Hyear|]. split; [|split].
  - apply (NoDup_map_inv (fun s => (s, y))). rewrite map_map.
    erewrite map_ext_in; [exact Hnodup|].
    intros [[s y'] a] Hin. simpl.
    rewrite Forall_forall in Hyear. rewrite <- (Hyear _ Hin). reflexivity.
  - intros s. split.
    + rewrite in_map_iff. intros [[[s' y'] a] [Hs Hin]]. simpl in Hs. subst s'.
      assert (Hk : In (s, y') (map fst (sort_values snd g))).
      { apply in_map_iff. exists (s, y', a). auto. }
      apply Hkeys in Hk. unfold df in Hk. apply in_map_select in Hk.
      destruct Hk as [r [Hin' [Hy Hk]]]. unfold key in Hk. inversion Hk; subst.
      exists r. apply Z.eqb_eq in Hy. auto.
    + intros [r [Hin [Hs Hy]]].
      assert (Hk : In (s, y) (map fst (sort_values snd g))).
      { apply Hkeys. unfold df. apply in_map_select. exists r.
        unfold key. simpl. rewrite Hs, Hy, Z.eqb_refl. auto. }
      apply in_map_iff in Hk. destruct Hk as [[k a] [Hk Hin']].
      simpl in Hk. subst k. apply in_map_iff. exists (s, y, a). auto.
  - apply Forall_forall. intros [[s y'] a] Hin. simpl.
    assert (Hy' : y' = y).
    { rewrite Forall_forall in Hyear. exact (Hyear _ Hin). }
    subst y'.
    apply (Permutation_in _ (Permutation_sym Hperm)) in Hin.
    apply (groupby_mean_value _ school_year_compare_strict) in Hin.
    rewrite Hin. unfold group_values, df.
    change (filter ?p (select ?q ?d)) with (select p (select q d)).
    rewrite select_select. unfold select.
    erewrite filter_ext; [reflexivity|].
    intros r. unfold key. rewrite school_year_key_eqb. simpl.
    destruct (String.eqb (Naplan.school_name r) s);
      destruct (Z.eqb (Naplan.results_year r) y); reflexivity.
Qed.

Lemma ranking_length_zero_iff (df : list Naplan.row) (results_year : year_value) :
  ranking_length (top_ranked_plot_df df results_year) = 0%nat
  <-> if year_is_all results_year then df = []
      else select (fun r => year_equals results_year (Naplan.results_year r)) df
           = [].
Proof.
  unfold top_ranked_plot_df.
  destruct (year_is_all results_year); simpl;
    rewrite sort_values_length, length_zero_iff_nil.
  - apply (groupby_mean_nil_iff _ string_compare_strict).
  - apply (groupby_mean_nil_iff _ school_year_compare_strict).
Qed.

Lemma select_nil_iff {R} (p : R -> bool) (df : list R) :
  select p df = [] <-> forall r, In r df -> p r = false.
Proof.
  unfold select. induction df as [|x df IH]; simpl.
  - tauto.
  - destruct (p x) eqn:E.
    + split; [discriminate|]. intros H. specialize (H x (or_introl eq_refl)).
      congruence.
    + rewrite IH. split.
      * intros H r [<-|Hin]; auto.
      * intros H r Hin. auto.
Qed.

Lemma update_top_ranked_schools_data (st : Store) (y : year_value) :
  ranking_data (fst (update_top_ranked_schools y st))
  = top_ranked_plot_df (naplan_results_df st) y.
Proof. reflexivity. Qed.

(** X2. A year input that matches no row gives an empty ranking and no
    error: the ranking for a year number is empty exactly when no source
    row has that year, and it is empty for a cleared dropdown and for
    every label other than "All"; for "All" it is empty only when the
    results frame is. *)
Theorem top_schools_empty_ranking (st : Store) :
  (forall y,
      ranking_length
        (ranking_data (fst (update_top_ranked_schools (YearNumber y) st)))
      = 0%nat
      <-> ~ In y (map Naplan.results_year (naplan_results_df st)))
  /\ ranking_length
       (ranking_data (fst (update_top_ranked_schools YearCleared st)))
     = 0%nat
  /\ (forall label,
        String.eqb label "All" = false ->
        ranking_length
          (ranking_data (fst (update_top_ranked_schools (YearLabel label) st)))
        = 0%nat)
  /\ (ranking_length
         (ranking_data (fst (update_top_ranked_schools (YearLabel "All") st)))
       = 0%nat
       <-> naplan_results_df st = []).
Proof.
  split; [|split; [|split]].
  - intros y. rewrite update_top_ranked_schools_data, ranking_length_zero_iff.
    cbn [year_is_all].
    rewrite select_nil_iff, in_map_iff. split.
    + intros H [r [Hy Hin]]. specialize (H r Hin). simpl in H.
      rewrite Hy, Z.eqb_refl in H. discriminate.
    + intros H r Hin. simpl. destruct (Z.eqb_spec (Naplan.results_year r) y); trivial.
      exfalso. apply H. exists r. auto.
  - rewrite update_top_ranked_schools_data. apply ranking_length_zero_iff.
    cbn [year_is_all]. apply select_false. reflexivity.
  - intros label Hlabel. rewrite update_top_ranked_schools_data.
    apply ranking_length_zero_iff. cbn [year_is_all]. rewrite Hlabel.
    apply select_false. reflexivity.
  - rewrite update_top_ranked_schools_data, ranking_length_zero_iff.
    reflexivity.
Qed.

Lemma top_schools_empty_ranking_witness :
  ranking_length
    (ranking_data
       (fst (update_top_ranked_schools (YearLabel "2020")
               (mkStore [] [Naplan.mk "A" "Reading" 2020 "Year 5" (50#1)] []))))
  = 0%nat.
Proof.
  apply (top_schools_empty_ranking
           (mkStore [] [Naplan.mk "A" "Reading" 2020 "Year 5" (50#1)] [])).
  reflexivity.
Defined.

(** ** Order of the averaged frame *)

(** X3. With domain "All" the averaged frame comes out in strictly
    increasing order of (school_name, results_year, year_level), compared
    column by column: a row stands above every row of a later school, and
    within a school above every row of a later year. *)
Theorem historical_all_key_order (st : Store) (sel : option (list string)) :
  exists rows,
    results_data (fst (update_naplan_results_per_year sel (Some "All") st))
    = Averaged rows
    /\ StronglySorted
         (fun a b =>
            let '(s1, y1, l1, _) := a in
            let '(s2, y2, l2, _) := b in
            string_compare s1 s2 = Lt
            \/ (s1 = s2 /\ y1 < y2)
            \/ (s1 = s2 /\ y1 = y2 /\ string_compare l1 l2 = Lt))
         rows.
Proof.
  unfold update_naplan_results_per_year, bind, read, ret. simpl.
  unfold naplan_plot_df. simpl.
  eexists. split; [reflexivity|].
  set (df := select _ (naplan_results_df st)).
  pose proof (groupby_mean_increasing level_compare level_compare_strict
                level_key_of Naplan.avg df) as Hinc.
  unfold increasing_keys in Hinc.
  induction Hinc as [|a l Hl IH Ha]; constructor; trivial.
  eapply Forall_impl; [|exact Ha].
  intros [[[s2 y2] l2] a2]. destruct a as [[[s1 y1] l1] a1].
  unfold level_compare, pair_compare. simpl.
  destruct (string_compare s1 s2) eqn:Es; try discriminate; auto.
  apply (cmp_eq _ string_compare_strict) in Es. subst s2.
  destruct (Z.compare_spec y1 y2); try discriminate; auto.
Qed.

(** ** The selection as a set of schools *)

Lemma isin_same_members (sel sel' : list string) :
  (forall x, In x sel <-> In x sel') -> forall x, isin sel x = isin sel' x.
Proof.
  intros H x. apply bool_eq_by_iff. rewrite !isin_In. apply H.
Qed.

Lemma update_naplan_results_per_year_data
    (st : Store) (sel : option (list string)) (d : option string) :
  results_data (fst (update_naplan_results_per_year sel d st))
  = naplan_plot_df (naplan_results_df st) (or_empty sel) d.
Proof. reflexivity. Qed.

Lemma update_income_distribution_data (st : Store) (sel : option (list string)) :
  fst (income_distribution_plot_df sel st)
  = income_plot_df distribution_income_fields (recurrent_income_df st)
      (or_empty sel).
Proof. reflexivity. Qed.

Lemma update_recurrent_income_data (st : Store) (sel : option (list string)) :
  income_data (fst (update_recurrent_income sel st))
  = income_plot_df trend_income_fields (recurrent_income_df st) (or_empty sel).
Proof. reflexivity. Qed.

(** X5. The plotted rows depend on the selection only as a set of schools:
    two selections with the same members, in whatever order and with
    whatever repetitions, give the same Historical Performance frame for
    every domain input and the same rows on both income charts. *)
Theorem plotted_rows_depend_on_members
    (st : Store) (sel sel' : list string) (d : option string) :
  (forall x, In x sel <-> In x sel') ->
  results_data (fst (update_naplan_results_per_year (Some sel) d st))
  = results_data (fst (update_naplan_results_per_year (Some sel') d st))
  /\ fst (income_distribution_plot_df (Some sel) st)
     = fst (income_distribution_plot_df (Some sel') st)
  /\ income_data (fst (update_recurrent_income (Some sel) st))
     = income_data (fst (update_recurrent_income (Some sel') st)).
Proof.
  intros Hsame. pose proof (isin_same_members sel sel' Hsame) as Hisin.
  rewrite !update_naplan_results_per_year_data,
    !update_income_distribution_data, !update_recurrent_income_data.
  cbn [or_empty]. unfold naplan_plot_df, income_plot_df, select.
  split; [|split].
  - destruct (domain_is_all d); f_equal; [f_equal|];
      apply filter_ext; intros r; rewrite Hisin; reflexivity.
  - apply filter_ext. intros r. rewrite Hisin. reflexivity.
  - apply filter_ext. intros r. rewrite Hisin. reflexivity.
Qed.

Lemma plotted_rows_depend_on_members_witness :
  let st := mkStore []
              [Naplan.mk "A" "Reading" 2020 "Year 5" (50#1);
               Naplan.mk "B" "Reading" 2020 "Year 5" (70#1)]
              [Income.mk "A" 2020 "Total gross income" (1000#1)] in
  results_data
    (fst (update_naplan_results_per_year (Some ["A"; "B"]) (Some "All") st))
  = results_data
      (fst (update_naplan_results_per_year (Some ["B"; "A"; "B"]) (Some "All") st)).
Proof.
  intros st.
  apply (plotted_rows_depend_on_members st ["A"; "B"] ["B"; "A"; "B"]
           (Some "All")).
  intros x. simpl. tauto.
Defined.

(** X6. Schools that do not occur in a frame select nothing from it: when
    no selected school has a row in the results frame the Historical
    Performance frame is empty for every domain input, and when none has a
    row in the income frame both income charts get no row. *)
Theorem unknown_schools_select_nothing
    (st : Store) (sel : option (list string)) (d : option string) :
  (forall x, In x (or_empty sel) ->
             ~ In x (map Naplan.school_name (naplan_results_df st))) ->
  (forall x, In x (or_empty sel) ->
             ~ In x (map Income.school_name (recurrent_income_df st))) ->
  frame_length (results_data (fst (update_naplan_results_per_year sel d st)))
  = 0%nat
  /\ fst (income_distribution_plot_df sel st) = []
  /\ income_data (fst (update_recurrent_income sel st)) = [].
Proof.
  intros Hn Hi.
  rewrite update_naplan_results_per_year_data,
    update_income_distribution_data, update_recurrent_income_data.
  assert (Hsel : forall r, In r (naplan_results_df st) ->
                           isin (or_empty sel) (Naplan.school_name r) = false).
  { intros r Hin. destruct (isin (or_empty sel) (Naplan.school_name r)) eqn:E;
      trivial. apply isin_In in E. exfalso. apply (Hn _ E).
    apply in_map. exact Hin. }
  assert (Hsel' : forall r, In r (recurrent_income_df st) ->
                            isin (or_empty sel) (Income.school_name r) = false).
  { intros r Hin. destruct (isin (or_empty sel) (Income.school_name r)) eqn:E;
      trivial. apply isin_In in E. exfalso. apply (Hi _ E).
    apply in_map. exact Hin. }
  split; [|split].
  - unfold naplan_plot_df. destruct (domain_is_all d); simpl.
    + replace (select _ (naplan_results_df st)) with (@nil Naplan.row);
        [reflexivity|].
      symmetry. apply select_nil_iff. exact Hsel.
    + replace (select _ (naplan_results_df st)) with (@nil Naplan.row);
        [reflexivity|].
      symmetry. apply select_nil_iff. intros r Hin. rewrite (Hsel r Hin).
      reflexivity.
  - unfold income_plot_df. apply select_nil_iff. intros r Hin.
    rewrite (Hsel' r Hin). apply andb_false_r.
  - unfold income_plot_df. apply select_nil_iff. intros r Hin.
    rewrite (Hsel' r Hin). apply andb_false_r.
Qed.

Lemma unknown_schools_select_nothing_witness :
  let st := mkStore []
              [Naplan.mk "A" "Reading" 2020 "Year 5" (50#1)]
              [Income.mk "A" 2020 "Total gross income" (1000#1)] in
  frame_length
    (results_data (fst (update_naplan_results_per_year (Some ["Z"]) (Some "All") st)))
  = 0%nat
  /\ fst (income_distribution_plot_df (Some ["Z"]) st) = []
  /\ income_data (fst (update_recurrent_income (Some ["Z"]) st)) = [].
Proof.
  intros st.
  apply (unknown_schools_select_nothing st (Some ["Z"]) (Some "All")).
  - simpl. intros x [<-|[]] [H|[]]. discriminate.
  - simpl. intros x [<-|[]] [H|[]]. discriminate.
Defined.

(** ** Selecting more schools *)

Lemma groupby_mean_wider_mask {K R} (cmp : K -> K -> comparison)
    (Hcmp : StrictCompare cmp) (key : R -> K) (val : R -> Q)
    (p p' : R -> bool) (df : list R) :
  (forall r r', key r = key r' -> p r = p r') ->
  (forall r r', key r = key r' -> p' r = p' r') ->
  (forall r, p r = true -> p' r = true) ->
  forall k a,
    In (k, a) (groupby_mean cmp key val (select p df)) ->
    exists a', In (k, a') (groupby_mean cmp key val (select p' df))
               /\ (a == a')%Q.
Proof.
  intros Hp Hp' Hpp' k a Hin.
  assert (Hk : In k (map key (select p df))).
  { apply (groupby_mean_keys cmp Hcmp key val). apply in_map_iff.
    exists (k, a). auto. }
  apply in_map_select in Hk. destruct Hk as [r0 [Hin0 [Hp0 Hk0]]].
  assert (Hk' : In k (map fst (groupby_mean cmp key val (select p' df)))).
  { apply (groupby_mean_keys cmp Hcmp key val). apply in_map_select.
    exists r0. auto. }
  apply in_map_iff in Hk'. destruct Hk' as [[k' a'] [Hfst Hin']].
  simpl in Hfst. subst k'. exists a'. split; trivial.
  apply (groupby_mean_value cmp Hcmp) in Hin.
  apply (groupby_mean_value cmp Hcmp) in Hin'.
  rewrite Hin, Hin'. unfold group_values.
  change (filter ?f (select ?g ?d)) with (select f (select g d)).
  rewrite !select_select. unfold select.
  erewrite filter_ext; [reflexivity|].
  intros r. simpl. destruct (key_eqb cmp (key r) k) eqn:E.
  - apply (key_eqb_true cmp Hcmp) in E.
    rewrite (Hp r r0), (Hp' r r0), Hp0, (Hpp' _ Hp0) by congruence.
    reflexivity.
  - rewrite !andb_false_r. reflexivity.
Qed.

(** X7. Selecting more schools only adds rows.  When every school of one
    selection is in another, each row plotted for the first on an income
    chart or on an ungrouped Historical Performance frame is plotted for
    the second, and each averaged row of the first appears in the second
    with the same key and an equal avg: the average of a school does not
    depend on which other schools are selected. *)
Theorem larger_selection_keeps_rows
    (st : Store) (sel sel' : list string) (d : option string) :
  incl sel sel' ->
  incl (fst (income_distribution_plot_df (Some sel) st))
       (fst (income_distribution_plot_df (Some sel') st))
  /\ incl (income_data (fst (update_recurrent_income (Some sel) st)))
          (income_data (fst (update_recurrent_income (Some sel') st)))
  /\ match results_data (fst (update_naplan_results_per_year (Some sel) d st)),
           results_data (fst (update_naplan_results_per_year (Some sel') d st))
     with
     | Unaggregated rows, Unaggregated rows' => incl rows rows'
     | Averaged rows, Averaged rows' =>
         forall k a, In (k, a) rows ->
                     exists a', In (k, a') rows' /\ (a == a')%Q
     | _, _ => False
     end.
Proof.
  intros Hincl.
  assert (Hisin : forall x, isin sel x = true -> isin sel' x = true).
  { intros x. rewrite !isin_In. apply Hincl. }
  rewrite !update_naplan_results_per_year_data,
    !update_income_distribution_data, !update_recurrent_income_data.
  cbn [or_empty]. unfold naplan_plot_df, income_plot_df.
  split; [|split].
  - intros r. unfold select. rewrite !filter_In, !andb_true_iff.
    intros [Hin [Hf Hs]]. auto.
  - intros r. unfold select. rewrite !filter_In, !andb_true_iff.
    intros [Hin [Hf Hs]]. auto.
  - destruct (domain_is_all d).
    + apply (groupby_mean_wider_mask _ level_compare_strict).
      * intros r r' Hk. unfold level_key_of in Hk. inversion Hk. congruence.
      * intros r r' Hk. unfold level_key_of in Hk. inversion Hk. congruence.
      * intros r. apply Hisin.
    + intros r. unfold select. rewrite !filter_In, !andb_true_iff.
      intros [Hin [Hs Hd]]. auto.
Qed.

Lemma larger_selection_keeps_rows_witness :
  let st := mkStore []
              [Naplan.mk "A" "Reading" 2020 "Year 5" (50#1);
               Naplan.mk "B" "Reading" 2020 "Year 5" (70#1)]
              [Income.mk "A" 2020 "Total gross income" (1000#1);
               Income.mk "B" 2020 "Total gross income" (2000#1)] in
  incl (income_data (fst (update_recurrent_income (Some ["A"]) st)))
       (income_data (fst (update_recurrent_income (Some ["A"; "B"]) st))).
Proof.
  intros st.
  apply (larger_selection_keeps_rows st ["A"] ["A"; "B"] (Some "All")).
  intros x [<-|[]]. simpl. auto.
Defined.

(** ** The two income charts *)

(** X8. The income charts split the rows of a school by label: a source
    row of a selected school is plotted on the Income Distribution chart
    exactly when its label is one of the four funding sources, on the
    Recurrent Income Trend chart exactly when its label is "Total gross
    income", and never on both. *)
Theorem income_charts_split_rows
    (st : Store) (sel sel' : option (list string)) (r : Income.row) :
  (In r (fst (income_distribution_plot_df sel st))
   <-> In r (recurrent_income_df st)
       /\ In (Income.school_name r) (or_empty sel)
       /\ In (Income.net_recurrent_income r) distribution_income_fields)
  /\ (In r (income_data (fst (update_recurrent_income sel' st)))
      <-> In r (recurrent_income_df st)
          /\ In (Income.school_name r) (or_empty sel')
          /\ Income.net_recurrent_income r = "Total gross income")
  /\ ~ (In r (fst (income_distribution_plot_df sel st))
        /\ In r (income_data (fst (update_recurrent_income sel' st)))).
Proof.
  rewrite update_income_distribution_data, update_recurrent_income_data.
  unfold income_plot_df, select.
  rewrite !filter_In, !andb_true_iff, !isin_In.
  split; [tauto|]. split.
  - simpl. intuition congruence.
  - intros [[_ [Hd _]] [_ [Ht _]]]. simpl in Hd, Ht.
    destruct Ht as [Ht|[]]. rewrite <- Ht in Hd.
    repeat (destruct Hd as [Hd|Hd]; [discriminate|]). exact Hd.
Qed.

(** ** Facet annotations *)

Section SplitFacts.
Variable sep : ascii.

Lemma string_app_assoc (a b c : string) : ((a ++ b) ++ c = a ++ (b ++ c))%string.
Proof. induction a as [|x a IH]; simpl; [|rewrite IH]; reflexivity. Qed.

Lemma occurs_app (a b : string) :
  occurs sep (a ++ b) = occurs sep a || occurs sep b.
Proof.
  induction a as [|x a IH]; simpl; trivial.
  rewrite IH. apply orb_assoc.
Qed.

Lemma split_char_nonempty (text : string) : split_char sep text <> [].
Proof.
  destruct text as [|c rest]; simpl; [discriminate|].
  destruct (Ascii.eqb c sep); [discriminate|].
  destruct (split_char sep rest); discriminate.
Qed.

Lemma join_split_char (text : string) :
  join_char sep (split_char sep text) = text.
Proof.
  induction text as [|c rest IH]; simpl; trivial.
  pose proof (split_char_nonempty rest) as Hne.
  destruct (Ascii.eqb_spec c sep) as [->|Hc].
  - destruct (split_char sep rest) as [|piece pieces]; [congruence|].
    simpl in *. rewrite IH. reflexivity.
  - destruct (split_char sep rest) as [|piece pieces]; [congruence|].
    destruct pieces as [|piece' pieces]; simpl in *; rewrite <- IH; reflexivity.
Qed.

Lemma split_char_pieces (text : string) :
  Forall (fun piece => occurs sep piece = false) (split_char sep text).
Proof.
  induction text as [|c rest IH]; simpl.
  - repeat constructor.
  - destruct (Ascii.eqb c sep) eqn:E.
    + constructor; trivial.
    + destruct (split_char sep rest) as [|piece pieces].
      * repeat constructor. simpl. rewrite E. reflexivity.
      * inversion IH; subst. constructor; trivial. simpl. rewrite E. assumption.
Qed.

Lemma split_char_whole (text : string) :
  occurs sep text = false -> split_char sep text = [text].
Proof.
  induction text as [|c rest IH]; simpl; trivial.
  intros H. apply orb_false_iff in H. destruct H as [Hc Hrest].
  rewrite Hc, (IH Hrest). reflexivity.
Qed.

Lemma split_char_single (text piece : string) :
  split_char sep text = [piece] -> text = piece /\ occurs sep text = false.
Proof.
  intros H. pose proof (join_split_char text) as Hj.
  pose proof (split_char_pieces text) as Hp.
  rewrite H in Hj, Hp. simpl in Hj. subst piece.
  inversion Hp; auto.
Qed.

Lemma last_item_cons {A} (x : A) (l : list A) :
  l <> [] -> last_item (x :: l) = last_item l.
Proof. destruct l; [congruence|reflexivity]. Qed.

Lemma last_item_some {A} (l : list A) : l <> [] -> exists x, last_item l = Some x.
Proof.
  induction l as [|a l IH]; [congruence|]. intros _.
  destruct l as [|b l]; [exists a; reflexivity|].
  rewrite last_item_cons by discriminate. apply IH. discriminate.
Qed.

Lemma last_item_In {A} (l : list A) (x : A) : last_item l = Some x -> In x l.
Proof.
  induction l as [|a l IH]; [discriminate|].
  destruct l as [|b l].
  - simpl. intros H. inversion H. auto.
  - rewrite last_item_cons by discriminate. intros H. right. auto.
Qed.

Lemma join_char_last (pieces : list string) (x : string) :
  last_item pieces = Some x ->
  join_char sep pieces = x
  \/ exists prefix, join_char sep pieces = (prefix ++ String sep x)%string.
Proof.
  induction pieces as [|a l IH]; [discriminate|].
  destruct l as [|b l].
  - simpl. intros H. inversion H. auto.
  - rewrite last_item_cons by discriminate. intros H. right.
    change (join_char sep (a :: b :: l))
      with (a ++ String sep (join_char sep (b :: l)))%string.
    destruct (IH H) as [->|[prefix ->]].
    + exists a. reflexivity.
    + exists (a ++ String sep prefix)%string.
      rewrite string_app_assoc. reflexivity.
Qed.

Lemma last_item_split_prefix (prefix name : string) :
  last_item (split_char sep (prefix ++ String sep name))
  = last_item (split_char sep name).
Proof.
  induction prefix as [|c prefix IH]; simpl.
  - rewrite Ascii.eqb_refl. apply last_item_cons, split_char_nonempty.
  - destruct (Ascii.eqb c sep).
    + rewrite last_item_cons by apply split_char_nonempty. exact IH.
    + destruct (split_char sep (prefix ++ String sep name)) as [|piece pieces] eqn:E.
      * exfalso. eapply split_char_nonempty. exact E.
      * destruct pieces as [|piece' pieces].
        -- apply split_char_single in E. destruct E as [_ E].
           rewrite occurs_app in E. simpl in E. rewrite Ascii.eqb_refl in E.
           rewrite orb_true_r in E. discriminate.
        -- rewrite <- IH. rewrite !last_item_cons by discriminate. reflexivity.
Qed.
End SplitFacts.

(** X9. Rewriting an annotation text never fails and keeps the part after
    the last "=": for every text, [text.split("=")[-1]] is defined, has no
    "=" in it, and is either the whole text or what follows an "=" of the
    text. *)
Theorem annotation_text_after_last_equals (text : string) :
  exists label,
    annotation_text text = Some label
    /\ occurs "=" label = false
    /\ (text = label
        \/ exists prefix, text = (prefix ++ "=" ++ label)%string).
Proof.
  unfold annotation_text.
  destruct (last_item_some (split_char "=" text) (split_char_nonempty _ _))
    as [label Hlast].
  exists label. split; [exact Hlast|]. split.
  - pose proof (split_char_pieces "=" text) as Hp.
    rewrite Forall_forall in Hp. apply Hp, last_item_In, Hlast.
  - apply (join_char_last "=") in Hlast.
    rewrite (join_split_char "=" text) in Hlast. exact Hlast.
Qed.

(** X10. A facet label "key=name" is rewritten to the name exactly when
    the name has no "=" in it; a school name with an "=" inside is cut
    down to what follows its last "=".  A text without "=" is left as it
    is. *)
Theorem annotation_text_facet_label (key name : string) :
  (annotation_text (key ++ "=" ++ name)%string = Some name
   <-> occurs "=" name = false)
  /\ annotation_text (key ++ "=" ++ name)%string = annotation_text name
  /\ (occurs "=" name = false -> annotation_text name = Some name).
Proof.
  unfold annotation_text.
  change (key ++ "=" ++ name)%string with (key ++ String "=" name)%string.
  rewrite last_item_split_prefix.
  assert (Hwhole : occurs "=" name = false
                   -> last_item (split_char "=" name) = Some name).
  { intros H. rewrite (split_char_whole _ _ H). reflexivity. }
  split; [|split]; trivial.
  split; trivial.
  intros Hlast. pose proof (split_char_pieces "=" name) as Hp.
  rewrite Forall_forall in Hp. apply Hp, last_item_In, Hlast.
Qed.

Lemma annotation_text_facet_label_witness :
  annotation_text "St Mary's" = Some "St Mary's".
Proof.
  apply (annotation_text_facet_label "school_name" "St Mary's").
  reflexivity.
Defined.

(** ** Dropdown options *)

Section UniqueFacts.
Context {A : Type} (eqb : A -> A -> bool).
Hypothesis eqb_true : forall a b, eqb a b = true <-> a = b.

Lemma existsb_eqb_In (x : A) (l : list A) :
  existsb (eqb x) l = true <-> In x l.
Proof.
  rewrite existsb_exists. split.
  - intros [y [Hin Heq]]. apply eqb_true in Heq. subst. assumption.
  - intros Hin. exists x. split; trivial. apply eqb_true. reflexivity.
Qed.

Lemma unique_from_In (seen l : list A) (x : A) :
  In x (unique_from eqb seen l) <-> In x l /\ ~ In x seen.
Proof.
  revert seen. induction l as [|a l IH]; intros seen; simpl.
  - tauto.
  - destruct (existsb (eqb a) seen) eqn:E.
    + apply existsb_eqb_In in E. rewrite IH. split.
      * tauto.
      * intros [[->|Hin] Hn]; tauto.
    + assert (Hn : ~ In a seen).
      { intros Hin. apply existsb_eqb_In in Hin. congruence. }
      simpl. rewrite IH. simpl. split.
      * intros [Heq|[Hin Hns]].
        -- subst. split; auto.
        -- split; tauto.
      * intros [[Heq|Hin] Hns]; [left; exact Heq|].
        destruct (eqb a x) eqn:Ex.
        -- left. apply eqb_true. exact Ex.
        -- right. split; trivial. intros [Heq|Hs]; [|tauto]. subst.
           rewrite (proj2 (eqb_true x x) eq_refl) in Ex. discriminate.
Qed.

Lemma unique_from_NoDup (seen l : list A) : NoDup (unique_from eqb seen l).
Proof.
  revert seen. induction l as [|a l IH]; intros seen; simpl.
  - constructor.
  - destruct (existsb (eqb a) seen); [apply IH|].
    constructor; [|apply IH].
    rewrite unique_from_In. simpl. tauto.
Qed.

Lemma unique_In (l : list A) (x : A) : In x (unique eqb l) <-> In x l.
Proof. unfold unique. rewrite unique_from_In. simpl. tauto. Qed.

Lemma unique_NoDup (l : list A) : NoDup (unique eqb l).
Proof. apply unique_from_NoDup. Qed.
End UniqueFacts.

(** X11. The dropdowns offer exactly what the data holds, once each: the
    school options of the Historical tab are the distinct school names of
    the results frame, the year options are the label "All" followed by
    the distinct years of the results frame as numbers and nothing else,
    the domain options are "All" followed by the distinct domains and
    nothing else, and the school options of the income tabs are
    the distinct school names of the income frame. *)
Theorem dropdown_options_from_data (st : Store) :
  (NoDup (school_selection_options st)
   /\ forall s, In s (school_selection_options st)
                <-> In s (map Naplan.school_name (naplan_results_df st)))
  /\ (NoDup (results_year_options st)
      /\ hd_error (results_year_options st) = Some (YearLabel "All")
      /\ (forall y, In (YearNumber y) (results_year_options st)
                    <-> In y (map Naplan.results_year (naplan_results_df st)))
      /\ exists years,
           results_year_options st = YearLabel "All" :: map YearNumber years
           /\ NoDup years
           /\ forall y, In y years
                        <-> In y (map Naplan.results_year
                                    (naplan_results_df st)))
  /\ (hd_error (result_domain_options st) = Some "All"
      /\ NoDup (tl (result_domain_options st))
      /\ forall d, In d (tl (result_domain_options st))
                   <-> In d (map Naplan.domain (naplan_results_df st)))
  /\ (NoDup (income_school_selection_options st)
      /\ forall s, In s (income_school_selection_options st)
                   <-> In s (map Income.school_name (recurrent_income_df st))).
Proof.
  unfold school_selection_options, results_year_options,
    result_domain_options, income_school_selection_options.
  split; [|split; [|split]].
  - split; [apply (unique_NoDup String.eqb String.eqb_eq)|].
    intros s. apply (unique_In String.eqb String.eqb_eq).
  - split; [|split; [reflexivity|]].
    + constructor.
      * rewrite in_map_iff. intros [y [Hy _]]. discriminate.
      * apply Finite.Injective_map_NoDup.
        -- intros a b Hab. inversion Hab. reflexivity.
        -- apply (unique_NoDup Z.eqb Z.eqb_eq).
    + split.
      * intros y. simpl. rewrite in_map_iff.
        rewrite <- (unique_In Z.eqb Z.eqb_eq
                      (map Naplan.results_year (naplan_results_df st)) y).
        split.
        -- intros [H|[y' [Hy Hin]]]; [discriminate|]. inversion Hy; subst.
           exact Hin.
        -- intros H. right. exists y. auto.
      * exists (unique Z.eqb (map Naplan.results_year (naplan_results_df st))).
        split; [reflexivity|].
        split; [apply (unique_NoDup Z.eqb Z.eqb_eq)|].
        intros y. apply (unique_In Z.eqb Z.eqb_eq).
  - simpl. split; [reflexivity|].
    split; [apply (unique_NoDup String.eqb String.eqb_eq)|].
    intros d. apply (unique_In String.eqb String.eqb_eq).
  - split; [apply (unique_NoDup String.eqb String.eqb_eq)|].
    intros s. apply (unique_In String.eqb String.eqb_eq).
Qed.

Lemma naplan_plot_df_all_length_zero (df : list Naplan.row) (sel : list string) :
  frame_length (naplan_plot_df df sel (Some "All")) = 0%nat
  <-> forall r, In r df -> isin sel (Naplan.school_name r) = false.
Proof.
  unfold naplan_plot_df. cbn [domain_is_all]. rewrite String.eqb_refl.
  cbn [frame_length].
  rewrite length_zero_iff_nil, (groupby_mean_nil_iff _ level_compare_strict).
  apply select_nil_iff.
Qed.

(** X12. An option taken from a dropdown never gives an empty chart where
    the data has a row for it: a selection that contains a school offered
    by the school dropdown gives, with domain "All", a frame with at least
    one row, and every option of the year dropdown, "All" included, gives
    a ranking with at least one row as soon as the results frame has a
    row. *)
Theorem offered_options_plot_rows (st : Store) :
  (forall sel s,
      In s (school_selection_options st) -> In s sel ->
      frame_length
        (results_data
           (fst (update_naplan_results_per_year (Some sel) (Some "All") st)))
      <> 0%nat)
  /\ (forall option,
        In option (results_year_options st) ->
        naplan_results_df st <> [] ->
        ranking_length
          (ranking_data (fst (update_top_ranked_schools option st)))
        <> 0%nat).
Proof.
  split.
  - intros sel s Hopt Hsel.
    rewrite update_naplan_results_per_year_data. cbn [or_empty].
    rewrite naplan_plot_df_all_length_zero. intros Hnone.
    unfold school_selection_options in Hopt.
    apply (proj1 (unique_In String.eqb String.eqb_eq _ _)) in Hopt.
    apply in_map_iff in Hopt. destruct Hopt as [r [Hs Hin]].
    specialize (Hnone r Hin). rewrite Hs in Hnone.
    apply isin_In in Hsel. congruence.
  - intros option Hopt Hdf.
    rewrite update_top_ranked_schools_data, ranking_length_zero_iff.
    unfold results_year_options in Hopt.
    destruct Hopt as [<-|Hopt]; [exact Hdf|].
    apply in_map_iff in Hopt. destruct Hopt as [y [<- Hin]].
    apply (proj1 (unique_In Z.eqb Z.eqb_eq _ _)) in Hin.
    apply in_map_iff in Hin. destruct Hin as [r [Hy Hin]].
    cbn [year_is_all]. rewrite select_nil_iff. intros Hnone.
    specialize (Hnone r Hin). simpl in Hnone.
    rewrite Hy, Z.eqb_refl in Hnone. discriminate.
Qed.

Lemma offered_options_plot_rows_witness :
  ranking_length
    (ranking_data
       (fst (update_top_ranked_schools (YearNumber 2020)
               (mkStore []
                  [Naplan.mk "A" "Reading" 2019 "Year 5" (50#1);
                   Naplan.mk "B" "Reading" 2020 "Year 5" (70#1)] []))))
  <> 0%nat.
Proof.
  apply (offered_options_plot_rows
           (mkStore []
              [Naplan.mk "A" "Reading" 2019 "Year 5" (50#1);
               Naplan.mk "B" "Reading" 2020 "Year 5" (70#1)] [])).
  - simpl. auto.
  - discriminate.
Defined.

(** X13. For the year input "All" the ranking has one bar for each school
    offered by the school dropdown of the Historical tab, and no other:
    its school_name column is a rearrangement of the dropdown options. *)
Theorem top_schools_all_lists_offered_schools (st : Store) :
  Permutation
    (ranking_school_name
       (ranking_data (fst (update_top_ranked_schools (YearLabel "All") st))))
    (school_selection_options st).
Proof.
  rewrite update_top_ranked_schools_data.
  unfold top_ranked_plot_df. cbn [year_is_all]. rewrite String.eqb_refl.
  cbn [ranking_school_name].
  set (g := groupby_mean string_compare Naplan.school_name Naplan.avg
              (naplan_results_df st)).
  rewrite <- (Permutation_map fst (sort_values_perm snd g)).
  apply NoDup_Permutation.
  - apply (groupby_mean_NoDup _ string_compare_strict).
  - apply (unique_NoDup String.eqb String.eqb_eq).
  - intros s. unfold g, school_selection_options.
    rewrite (groupby_mean_keys _ string_compare_strict).
    symmetry. apply (unique_In String.eqb String.eqb_eq).
Qed.

(** ** Colours of the income categories *)

Lemma dict_get_In (k v : string) (d : list (string * string)) :
  dict_get k d = Some v -> In (k, v) d.
Proof.
  induction d as [|[k' v'] d IH]; simpl; [discriminate|].
  destruct (String.eqb_spec k' k) as [->|Hne].
  - intros H. inversion H. auto.
  - auto.
Qed.

Lemma values_NoDup_key (d : list (string * string)) (k k' v : string) :
  NoDup (map snd d) -> In (k, v) d -> In (k', v) d -> k = k'.
Proof.
  induction d as [|[k0 v0] d IH]; simpl; [tauto|].
  intros Hnd Hin Hin'. inversion Hnd as [|? ? Hfresh Hnd']; subst.
  assert (Hv : forall x, In (x, v0) d -> False).
  { intros x Hx. apply Hfresh. apply in_map_iff. exists (x, v0). auto. }
  destruct Hin as [Hin|Hin], Hin' as [Hin'|Hin'].
  - congruence.
  - inversion Hin; subst. exfalso. eauto.
  - inversion Hin'; subst. exfalso. eauto.
  - auto.
Qed.

(** X14. Building the colour map needs four palette entries: with fewer
    the lookup [palette[i]] fails, with four or more the map is built, and
    then the label of every row plotted on the Income Distribution chart
    has a colour of the palette in it; when the palette has no colour
    twice, two labels with the same colour are the same label. *)
Theorem colordict_covers_plotted_labels
    (palette : list string) (st : Store) (sel : option (list string)) :
  (colordict palette = None <-> (length palette < 4)%nat)
  /\ forall d,
       colordict palette = Some d ->
       Forall
         (fun r => exists colour,
                     dict_get (Income.net_recurrent_income r) d = Some colour
                     /\ In colour palette)
         (fst (income_distribution_plot_df sel st))
       /\ (NoDup palette ->
           forall f f' colour,
             dict_get f d = Some colour -> dict_get f' d = Some colour ->
             f = f').
Proof.
  destruct palette as [|c0 [|c1 [|c2 [|c3 rest]]]];
    try (split; [split; [simpl; lia | reflexivity] | discriminate]).
  split.
  - split; [discriminate | simpl; lia].
  - intros d Hd. unfold colordict in Hd. simpl in Hd. inversion Hd; subst d.
    clear Hd. split.
    + rewrite update_income_distribution_data. unfold income_plot_df, select.
      apply Forall_forall. intros r Hin. apply filter_In in Hin.
      destruct Hin as [_ Hmask]. apply andb_true_iff in Hmask.
      destruct Hmask as [Hlabel _]. apply isin_In in Hlabel.
      simpl in Hlabel.
      destruct Hlabel as [<-|[<-|[<-|[<-|[]]]]]; simpl; eexists; split;
        try reflexivity; simpl; auto.
    + intros Hnd f f' colour Hf Hf'.
      apply dict_get_In in Hf. apply dict_get_In in Hf'.
      eapply values_NoDup_key; [|exact Hf|exact Hf'].
      simpl. apply (NoDup_app_remove_r [c0; c1; c2; c3] rest). exact Hnd.
Qed.

Lemma colordict_covers_plotted_labels_witness :
  colordict ["#636EFA"; "#EF553B"; "#00CC96"] = None
  /\ colordict ["#636EFA"; "#EF553B"; "#00CC96"; "#AB63FA"; "#FFA15A"] <> None.
Proof.
  split.
  - apply (colordict_covers_plotted_labels
             ["#636EFA"; "#EF553B"; "#00CC96"] (mkStore [] [] []) None).
    simpl. lia.
  - intros H.
    apply (colordict_covers_plotted_labels
             ["#636EFA"; "#EF553B"; "#00CC96"; "#AB63FA"; "#FFA15A"]
             (mkStore [] [] []) None) in H.
    simpl in H. lia.
Defined.

(** ** The per-domain view and the averaged view *)

Lemma float64_mean_single (v : Q) :
  (round_f64 v == v)%Q -> (float64_mean [v] == v)%Q.
Proof.
  intros Hv. unfold float64_mean. simpl fold_left. simpl length.
  unfold kahan_step, f64_div, f64_add, f64_sub, f64_of_count. simpl fst.
  assert (H1 : round_f64 (v - 0) = round_f64 v).
  { apply round_f64_comp. ring. }
  rewrite H1.
  assert (H2 : round_f64 (0 + round_f64 v) = round_f64 v).
  { apply round_f64_comp. rewrite Hv. ring. }
  rewrite H2.
  change (round_f64 (inject_Z (Z.of_nat 1))) with 1%Q.
  assert (H3 : round_f64 (round_f64 v / 1) = round_f64 v).
  { apply round_f64_comp. rewrite Hv. field. }
  rewrite H3. exact Hv.
Qed.

(** X15. Every point of a per-domain view has its point in the averaged
    view: for one selection, each row plotted for a domain other than
    "All" has a row with its school, year and level in the frame plotted
    for "All", and when that row is the only source row of its school,
    year and level the averaged value equals its avg. *)
Theorem domain_rows_have_averaged_row
    (st : Store) (sel : option (list string)) (d : option string) :
  exists averaged,
    results_data (fst (update_naplan_results_per_year sel (Some "All") st))
    = Averaged averaged
    /\ match results_data (fst (update_naplan_results_per_year sel d st)) with
       | Averaged rows => rows = averaged
       | Unaggregated rows =>
           Forall
             (fun r =>
                exists a,
                  In (level_key_of r, a) averaged
                  /\ (select (fun r' => key_eqb level_compare
                                          (level_key_of r') (level_key_of r))
                         (naplan_results_df st) = [r]
                      -> (a == Naplan.avg r)%Q))
             rows
       end.
Proof.
  rewrite !update_naplan_results_per_year_data.
  unfold naplan_plot_df at 1. cbn [domain_is_all]. rewrite String.eqb_refl.
  eexists. split; [reflexivity|].
  unfold naplan_plot_df. destruct (domain_is_all d); [reflexivity|].
  apply Forall_forall. intros r Hin. unfold select in Hin.
  apply filter_In in Hin. destruct Hin as [Hin Hmask].
  apply andb_true_iff in Hmask. destruct Hmask as [Hsel _].
  set (df := select _ (naplan_results_df st)).
  assert (Hk : In (level_key_of r)
                 (map fst (groupby_mean level_compare level_key_of Naplan.avg df))).
  { apply (groupby_mean_keys _ level_compare_strict). apply in_map.
    unfold df, select. apply filter_In. auto. }
  apply in_map_iff in Hk. destruct Hk as [[k a] [Hk Hrow]]. simpl in Hk.
  subst k. exists a. split; [exact Hrow|].
  intros Honly.
  apply (groupby_mean_value _ level_compare_strict) in Hrow. rewrite Hrow.
  unfold group_values, df.
  change (filter ?f (select ?g ?l)) with (select f (select g l)).
  rewrite select_select.
  assert (Heq : select
                  (fun r0 => isin (or_empty sel) (Naplan.school_name r0)
                             && key_eqb level_compare (level_key_of r0)
                                  (level_key_of r))
                  (naplan_results_df st) = [r]).
  { rewrite <- Honly. unfold select. apply filter_ext. intros r0.
    destruct (key_eqb level_compare (level_key_of r0) (level_key_of r)) eqn:E.
    - apply (key_eqb_true _ level_compare_strict) in E.
      unfold level_key_of in E. inversion E as [[Hs Hy Hl]].
      rewrite Hs, Hsel. reflexivity.
    - apply andb_false_r. }
  rewrite Heq. apply float64_mean_single.
  unfold Naplan.avg. apply round_f64_idempotent.
Qed.

Lemma domain_rows_have_averaged_row_witness :
  exists averaged,
    results_data
      (fst (update_naplan_results_per_year (Some ["A"]) (Some "All")
              (mkStore []
                 [Naplan.mk "A" "Reading" 2020 "Year 5" (50#1);
                  Naplan.mk "A" "Writing" 2021 "Year 5" (60#1)] [])))
    = Averaged averaged
    /\ exists a,
         In (level_key_of (Naplan.mk "A" "Reading" 2020 "Year 5" (50#1)), a)
            averaged
         /\ (a == 50#1)%Q.
Proof.
  destruct (domain_rows_have_averaged_row
              (mkStore []
                 [Naplan.mk "A" "Reading" 2020 "Year 5" (50#1);
                  Naplan.mk "A" "Writing" 2021 "Year 5" (60#1)] [])
              (Some ["A"]) (Some "Reading")) as [averaged [Hall Hrows]].
  exists averaged. split; [exact Hall|].
  simpl in Hrows. inversion Hrows as [|r rows [a [Hin Hone]] _]; subst.
  exists a. split; [exact Hin|]. apply Hone. reflexivity.
Defined.
